(** * Go_api: the in-memory student service (main.go) and the Ollama client

    A shallow embedding of the request handlers of [main.go] and of
    [OllamaClient.GenerateStudentSummary], with the properties the
    specification states about them.

    Conventions of the embedding.
    - Go's [int] is modelled at its 64-bit width as a [Z] inside
      [min_int, max_int]; the one arithmetic operation of the program,
      [nextID++], wraps around as Go's signed addition does.
    - Go's [string] is a byte sequence, as Rocq's [string] is.
    - [map[int]Student] is a [gmap Z Student].
    - A handler runs on the shared store and on its [http.ResponseWriter];
      both are threaded through a small state monad.  Every access of a
      handler to the store happens inside one critical section of the
      store's lock, so a handler is one atomic step on the store and a
      server run is a sequence of such steps.
    - [encoding/json] and the network are outside the repository: a request
      carries the outcome of decoding its body, and the values handed to
      [json.Encoder] are kept as JSON trees.  [json.Marshal] in the Ollama
      client is given strings from any caller, so there the replacement of
      ill-formed UTF-8 by U+FFFD is modelled. *)

From Stdlib Require Import ZArith String Ascii List Lia.
From Stdlib Require Import Decimal DecimalString DecimalZ.
From stdpp Require Import gmap strings.

Open Scope Z_scope.

(** ** Go's [int] *)

Module GoInt.

Definition int_size : Z := 64.
Definition min_int : Z := - 2 ^ (int_size - 1).
Definition max_int : Z := 2 ^ (int_size - 1) - 1.

Definition in_range (z : Z) : Prop := min_int ≤ z ≤ max_int.

(** Two's complement wrap-around of a mathematical result. *)
Definition wrap (z : Z) : Z := (z - min_int) mod 2 ^ int_size + min_int.

(** [x++] on an [int]. *)
Definition incr (x : Z) : Z := wrap (x + 1).

End GoInt.

(** ** strconv.Atoi and the [%d] verb *)

Module Strconv.

(** [ch -= '0'; if ch > 9 { error }] on one byte. *)
Definition digit (ch : ascii) : option Z :=
  let c := Z.of_N (N_of_ascii ch) in
  if (48 <=? c) && (c <=? 57) then Some (c - 48) else None.

(** The loop [n = n*10 + int(ch)] over the bytes after the sign. *)
Fixpoint digits (n : Z) (s : string) : option Z :=
  match s with
  | EmptyString => Some n
  | String ch s' =>
      match digit ch with
      | Some d => digits (n * 10 + d) s'
      | None => None
      end
  end.

(** [strconv.Atoi]: an optional sign, at least one decimal digit, nothing
    else, and a value that fits [int]; [None] stands for the syntax and
    range errors. *)
Definition Atoi (s : string) : option Z :=
  match s with
  | EmptyString => None
  | String c rest =>
      let neg := Ascii.eqb c "-" in
      let body := if neg || Ascii.eqb c "+" then rest else s in
      match body with
      | EmptyString => None
      | _ =>
          match digits 0 body with
          | Some n =>
              let n := if neg then - n else n in
              if (GoInt.min_int <=? n) && (n <=? GoInt.max_int)
              then Some n else None
          | None => None
          end
      end
  end.

(** [%d] applied to an [int]: decimal digits, a leading [-] when negative. *)
Definition FormatInt (z : Z) : string :=
  NilZero.string_of_int (Z.to_int z).

End Strconv.

(** ** JSON trees given to [json.Encoder] *)

#[warnings="-register-all"]
Inductive json : Type :=
| JNull
| JNumber (z : Z)
| JString (s : string)
| JArray (items : list json)
| JObject (fields : list (string * json)).

(** ** The Student entity *)

Record Student := mkStudent {
  ID : Z;
  Name : string;
  Age : Z;
  Email : string
}.

Definition setID (s : Student) (id : Z) : Student :=
  {| ID := id; Name := Name s; Age := Age s; Email := Email s |}.

Record ValidationError := mkValidationError {
  Field : string;
  Message : string
}.

Definition errName : ValidationError :=
  {| Field := "name"; Message := "Name is required" |}.
Definition errAge : ValidationError :=
  {| Field := "age"; Message := "Age must be between 0 and 150" |}.
Definition errEmail : ValidationError :=
  {| Field := "email"; Message := "Email is required" |}.

(** [Student.Validate]: three independent checks, each appending to the
    slice [errors]. *)
Definition Validate (s : Student) : list ValidationError :=
  let errors := [] in
  let errors :=
    if String.eqb (Name s) EmptyString then errors ++ [errName] else errors in
  let errors :=
    if (Age s <? 0) || (Age s >? 150) then errors ++ [errAge] else errors in
  let errors :=
    if String.eqb (Email s) EmptyString then errors ++ [errEmail] else errors in
  errors.

(** Struct tags of [Student] and [ValidationError]. *)
Definition json_of_Student (s : Student) : json :=
  JObject [("id", JNumber (ID s)); ("name", JString (Name s));
           ("age", JNumber (Age s)); ("email", JString (Email s))]%string.

Definition json_of_ValidationError (e : ValidationError) : json :=
  JObject [("field", JString (Field e));
           ("message", JString (Message e))]%string.

(** The rules as the specification words them. *)
Definition name_ok (s : Student) : Prop := Name s ≠ EmptyString.
Definition age_ok (s : Student) : Prop := 0 ≤ Age s ≤ 150.
Definition email_ok (s : Student) : Prop := Email s ≠ EmptyString.
Definition valid (s : Student) : Prop := name_ok s ∧ age_ok s ∧ email_ok s.

(** ** The store *)

(** [StudentStore]: the map and the counter.  The embedded [sync.RWMutex]
    only delimits the critical sections, and the [db] handle is never used by
    a handler. *)
Record StudentStore := mkStore {
  students : gmap Z Student;
  nextID : Z
}.

Definition NewStudentStore : StudentStore :=
  {| students := ∅; nextID := 1 |}.

(** ** net/http: status codes, the response writer, requests *)

Definition StatusOK : Z := 200.
Definition StatusCreated : Z := 201.
Definition StatusNoContent : Z := 204.
Definition StatusBadRequest : Z := 400.
Definition StatusNotFound : Z := 404.

(** What a handler writes to the body: a plain-text line ([http.Error]) or
    one JSON document ([json.Encoder.Encode]). *)
Inductive Chunk : Type :=
| Text (line : string)
| Json (v : json).

(** [http.ResponseWriter]: the status line once it is written, and the body
    written so far. *)
Record ResponseWriter := mkWriter {
  header : option Z;
  written : list Chunk
}.

Definition newWriter : ResponseWriter :=
  {| header := None; written := [] |}.

(** [http.Request] as the handlers read it: the route variables of
    [mux.Vars] and the outcome of [json.Decoder.Decode] on the body into a
    [Student] ([None] for a decoding error). *)
Record Request := mkRequest {
  Vars : gmap string string;
  Body : option Student
}.

(** What the client receives once the handler has returned. *)
Record Response := mkResponse {
  StatusCode : Z;
  Payload : list Chunk
}.

(** ** The handler monad: state over the store and the writer *)

Record World := mkWorld {
  store : StudentStore;
  w : ResponseWriter
}.

Definition Handler (A : Type) : Type := World → A * World.

#[global] Instance Handler_ret : MRet Handler :=
  λ A a σ, (a, σ).
#[global] Instance Handler_bind : MBind Handler :=
  λ A B f m σ, let '(a, σ') := m σ in f a σ'.

Definition getStore : Handler StudentStore :=
  λ σ, (store σ, σ).
Definition putStore (st : StudentStore) : Handler unit :=
  λ σ, (tt, {| store := st; w := w σ |}).
Definition getWriter : Handler ResponseWriter :=
  λ σ, (w σ, σ).
Definition putWriter (rw : ResponseWriter) : Handler unit :=
  λ σ, (tt, {| store := store σ; w := rw |}).

(** [w.WriteHeader(code)]: only the first call sets the status. *)
Definition WriteHeader (code : Z) : Handler unit :=
  rw ← getWriter;
  match header rw with
  | Some _ => mret tt
  | None => putWriter {| header := Some code; written := written rw |}
  end.

(** [w.Write]: an implicit [WriteHeader(StatusOK)] first. *)
Definition Write (c : Chunk) : Handler unit :=
  WriteHeader StatusOK;;
  rw ← getWriter;
  putWriter {| header := header rw; written := written rw ++ [c] |}.

(** [http.Error(w, msg, code)]. *)
Definition Error (msg : string) (code : Z) : Handler unit :=
  WriteHeader code;;
  Write (Text msg).

(** [json.NewEncoder(w).Encode(v)]. *)
Definition Encode (v : json) : Handler unit :=
  Write (Json v).

(** Reads and writes of the store's two fields. *)
Definition lookupStudent (id : Z) : Handler (option Student) :=
  st ← getStore; mret (students st !! id).
Definition storeStudent (id : Z) (s : Student) : Handler unit :=
  st ← getStore;
  putStore {| students := <[id := s]> (students st); nextID := nextID st |}.
Definition deleteStudent (id : Z) : Handler unit :=
  st ← getStore;
  putStore {| students := delete id (students st); nextID := nextID st |}.
Definition incrNextID : Handler unit :=
  st ← getStore;
  putStore {| students := students st; nextID := GoInt.incr (nextID st) |}.

(** [strconv.Atoi(mux.Vars(r)["id"])]; a missing key reads as the empty
    string. *)
Definition pathID (r : Request) : option Z :=
  Strconv.Atoi (default EmptyString (Vars r !! "id"%string)).

(** ** The handlers of [App] *)

Definition CreateStudent (r : Request) : Handler unit :=
  match Body r with
  | None => Error "Invalid request body" StatusBadRequest
  | Some student =>
      let errors := Validate student in
      if (0 <? length errors)%nat then
        WriteHeader StatusBadRequest;;
        Encode (JArray (json_of_ValidationError <$> errors))
      else
        st ← getStore;
        let student := setID student (nextID st) in
        incrNextID;;
        storeStudent (ID student) student;;
        WriteHeader StatusCreated;;
        Encode (json_of_Student student)
  end.

(** The range loop visits the entries in an order Go leaves unspecified;
    the embedding takes the order of [map_to_list]. *)
Definition GetAllStudents (r : Request) : Handler unit :=
  st ← getStore;
  let students := snd <$> map_to_list (students st) in
  Encode (JArray (json_of_Student <$> students)).

Definition GetStudent (r : Request) : Handler unit :=
  match pathID r with
  | None => Error "Invalid ID" StatusBadRequest
  | Some id =>
      found ← lookupStudent id;
      match found with
      | None => Error "Student not found" StatusNotFound
      | Some student => Encode (json_of_Student student)
      end
  end.

Definition UpdateStudent (r : Request) : Handler unit :=
  match pathID r with
  | None => Error "Invalid ID" StatusBadRequest
  | Some id =>
      match Body r with
      | None => Error "Invalid request body" StatusBadRequest
      | Some student =>
          let errors := Validate student in
          if (0 <? length errors)%nat then
            WriteHeader StatusBadRequest;;
            Encode (JArray (json_of_ValidationError <$> errors))
          else
            found ← lookupStudent id;
            match found with
            | None => Error "Student not found" StatusNotFound
            | Some _ =>
                let student := setID student id in
                storeStudent id student;;
                Encode (json_of_Student student)
            end
      end
  end.

Definition DeleteStudent (r : Request) : Handler unit :=
  match pathID r with
  | None => Error "Invalid ID" StatusBadRequest
  | Some id =>
      found ← lookupStudent id;
      match found with
      | None => Error "Student not found" StatusNotFound
      | Some _ =>
          deleteStudent id;;
          WriteHeader StatusNoContent
      end
  end.

(** [fmt.Sprintf("Student %s is %d years old with email %s.", ...)]. *)
Definition summaryLine (s : Student) : string :=
  "Student " +:+ Name s +:+ " is " +:+ Strconv.FormatInt (Age s) +:+
  " years old with email " +:+ Email s +:+ ".".

Definition GetStudentSummary (r : Request) : Handler unit :=
  match pathID r with
  | None => Error "Invalid ID" StatusBadRequest
  | Some id =>
      found ← lookupStudent id;
      match found with
      | None => Error "Student not found" StatusNotFound
      | Some student =>
          let summary := summaryLine student in
          Encode (JObject [("summary"%string, JString summary)])
      end
  end.

(** ** The router of [main] *)

Inductive Route : Type :=
| POST_students
| GET_students
| GET_student
| PUT_student
| DELETE_student
| GET_student_summary.

Definition route (rt : Route) : Request → Handler unit :=
  match rt with
  | POST_students => CreateStudent
  | GET_students => GetAllStudents
  | GET_student => GetStudent
  | PUT_student => UpdateStudent
  | DELETE_student => DeleteStudent
  | GET_student_summary => GetStudentSummary
  end.

(** The server's reply for what the handler left in the writer: a handler
    that never wrote a status gets [StatusOK]. *)
Definition respond (rw : ResponseWriter) : Response :=
  {| StatusCode := default StatusOK (header rw); Payload := written rw |}.

(** One request served on a store: the handler runs on a new writer. *)
Definition ServeHTTP (rt : Route) (r : Request) (st : StudentStore)
  : Response * StudentStore :=
  let '(_, σ) := route rt r {| store := st; w := newWriter |} in
  (respond (w σ), store σ).

(** A run of the server: requests served one after the other. *)
Fixpoint serveAll (reqs : list (Route * Request)) (st : StudentStore)
  : list Response * StudentStore :=
  match reqs with
  | [] => ([], st)
  | (rt, r) :: reqs' =>
      let '(resp, st') := ServeHTTP rt r st in
      let '(resps, st'') := serveAll reqs' st' in
      (resp :: resps, st'')
  end.

(** The store states the server can be in. *)
Inductive reachable : StudentStore → Prop :=
| reachable_new : reachable NewStudentStore
| reachable_serve rt r st :
    reachable st → reachable (snd (ServeHTTP rt r st)).

(** ** UTF-8 as [encoding/json] sees it *)

Module Utf8.

(** What the first byte of a sequence announces (the table [first] of
    [unicode/utf8]): a one-byte character, a byte that starts nothing, or a
    sequence of two, three or four bytes with the range accepted for its
    second byte. *)
Inductive Lead : Type :=
| Single
| Illegal
| Two
| Three (lo hi : N)
| Four (lo hi : N).

Definition lead (b : ascii) : Lead :=
  let n := N_of_ascii b in
  if (n <? 128)%N then Single
  else if (n <? 194)%N then Illegal
  else if (n <? 224)%N then Two
  else if (n =? 224)%N then Three 160 191
  else if (n =? 237)%N then Three 128 159
  else if (n <? 240)%N then Three 128 191
  else if (n =? 240)%N then Four 144 191
  else if (n <? 244)%N then Four 128 191
  else if (n =? 244)%N then Four 128 143
  else Illegal.

Definition within (lo hi : N) (b : ascii) : bool :=
  ((lo <=? N_of_ascii b) && (N_of_ascii b <=? hi))%N.

(** A continuation byte, 0x80 to 0xBF. *)
Definition cont (b : ascii) : bool := within 128 191 b.

(** U+FFFD in UTF-8: the bytes EF BF BD. *)
Definition replacement : string :=
  String (ascii_of_nat 239)
    (String (ascii_of_nat 191) (String (ascii_of_nat 189) EmptyString)).

(** [utf8.ValidString]. *)
Fixpoint valid (s : string) : bool :=
  match s with
  | EmptyString => true
  | String b0 rest =>
      match lead b0 with
      | Single => valid rest
      | Illegal => false
      | Two =>
          match rest with
          | String b1 r1 => cont b1 && valid r1
          | _ => false
          end
      | Three lo hi =>
          match rest with
          | String b1 (String b2 r2) => within lo hi b1 && cont b2 && valid r2
          | _ => false
          end
      | Four lo hi =>
          match rest with
          | String b1 (String b2 (String b3 r3)) =>
              within lo hi b1 && cont b2 && cont b3 && valid r3
          | _ => false
          end
      end
  end.

(** The string a JSON reader gets back from what [encoding/json] writes for
    a Go string: a well-formed sequence is kept (escapes are undone by the
    reader), and each byte at which [utf8.DecodeRuneInString] reports an
    error of width one is replaced by U+FFFD. *)
Fixpoint toValid (s : string) : string :=
  match s with
  | EmptyString => EmptyString
  | String b0 rest =>
      match lead b0 with
      | Single => String b0 (toValid rest)
      | Illegal => replacement +:+ toValid rest
      | Two =>
          match rest with
          | String b1 r1 =>
              if cont b1 then String b0 (String b1 (toValid r1))
              else replacement +:+ toValid rest
          | _ => replacement +:+ toValid rest
          end
      | Three lo hi =>
          match rest with
          | String b1 (String b2 r2) =>
              if within lo hi b1 && cont b2
              then String b0 (String b1 (String b2 (toValid r2)))
              else replacement +:+ toValid rest
          | _ => replacement +:+ toValid rest
          end
      | Four lo hi =>
          match rest with
          | String b1 (String b2 (String b3 r3)) =>
              if within lo hi b1 && cont b2 && cont b3
              then String b0 (String b1 (String b2 (String b3 (toValid r3))))
              else replacement +:+ toValid rest
          | _ => replacement +:+ toValid rest
          end
      end
  end.

End Utf8.

(** ** The Ollama client *)

Module Ollama.

Record OllamaClient := mkClient { baseURL : string }.

Record OllamaRequest := mkOllamaRequest {
  Model : string;
  Prompt : string
}.

Record OllamaResponse := mkOllamaResponse { Response : string }.

Definition NewOllamaClient (baseURL : string) : OllamaClient :=
  {| baseURL := baseURL |}.

(** Go's [error] values, by their message. *)
Definition error : Type := string.

(** What comes back from [http.Post] as the function reads it: a
    transport error, or a response whose body [json.Decoder.Decode] turns
    into an [OllamaResponse] or into an error. *)
Inductive PostResult : Type :=
| PostFailed (err : error)
| PostDone (decoded : error + OllamaResponse).

(** A computation that may issue HTTP POSTs before it returns. *)
Inductive Call (A : Type) : Type :=
| Return (a : A)
| HttpPost (url contentType : string) (body : json)
           (k : PostResult → Call A).
Arguments Return {A} a.
Arguments HttpPost {A} url contentType body k.

(** The line feed of the format string. *)
Definition LF : string := String (ascii_of_nat 10) EmptyString.

(** [fmt.Sprintf] of the prompt's format string. *)
Definition promptOf (student : Student) : string :=
  "Generate a brief summary of this student:" +:+ LF +:+
  "Name: " +:+ Name student +:+ LF +:+
  "Age: " +:+ Strconv.FormatInt (Age student) +:+ LF +:+
  "Email: " +:+ Email student.

(** [json.Marshal] of an [OllamaRequest], by its struct tags; it has no
    failing case for a struct of two strings, and it writes each string
    with its ill-formed bytes replaced by U+FFFD. *)
Definition Marshal (r : OllamaRequest) : error + json :=
  inr (JObject [("model", JString (Utf8.toValid (Model r)));
                ("prompt", JString (Utf8.toValid (Prompt r)))]%string).

(** The Go pair [(string, error)]; [None] is the [nil] error. *)
Definition GenerateStudentSummary (c : OllamaClient) (student : Student)
  : Call (string * option error) :=
  let prompt := promptOf student in
  let reqBody := {| Model := "llama2"; Prompt := prompt |} in
  match Marshal reqBody with
  | inl err => Return (EmptyString, Some err)
  | inr jsonBody =>
      HttpPost (baseURL c +:+ "/api/generate") "application/json" jsonBody
        (λ resp,
           match resp with
           | PostFailed err => Return (EmptyString, Some err)
           | PostDone (inl err) => Return (EmptyString, Some err)
           | PostDone (inr ollamaResp) =>
               Return (Response ollamaResp, None)
           end)
  end.

(** The prompt as the specification words it. *)
Definition specPrompt (student : Student) : string :=
  "Generate a brief summary of this student: Name: " +:+ Name student +:+
  ", Age: " +:+ Strconv.FormatInt (Age student) +:+
  ", Email: " +:+ Email student.

(** The claim of the specification about [GenerateStudentSummary], for a
    prompt builder [P]: one POST to [baseURL/api/generate] carrying the
    model and [P student], then the reply's response field, or the
    transport or decoding error, handed to the caller. *)
Definition relays (P : Student → string) (c : OllamaClient)
    (student : Student) : Prop :=
  ∃ k,
    GenerateStudentSummary c student =
      HttpPost (baseURL c +:+ "/api/generate") "application/json"
        (JObject [("model", JString "llama2");
                  ("prompt", JString (P student))]%string) k
    ∧ (∀ err, k (PostFailed err) = Return (EmptyString, Some err))
    ∧ (∀ err, k (PostDone (inl err)) = Return (EmptyString, Some err))
    ∧ (∀ r, k (PostDone (inr r)) = Return (Response r, None)).

End Ollama.

(** ** Observing a run *)

Definition replies (reqs : list (Route * Request)) (st : StudentStore)
  : list Response := fst (serveAll reqs st).
Definition after (reqs : list (Route * Request)) (st : StudentStore)
  : StudentStore := snd (serveAll reqs st).

(** The id a client reads in a [201 Created] reply. *)
Definition created_id (resp : Response) : option Z :=
  if StatusCode resp =? StatusCreated then
    match Payload resp with
    | [Json (JObject ((key, JNumber id) :: _))] =>
        if String.eqb key "id" then Some id else None
    | _ => None
    end
  else None.

(** The ids handed out during a run, in creation order. *)
Definition createdIDs (resps : list Response) : list Z :=
  omap created_id resps.

(** The ids 1, 2, ..., n. *)
Definition firstIDs (n : nat) : list Z := Z.of_nat <$> seq 1 n.

(** What one request does to the store, case by case: the three successful
    mutations, a successful read, and a rejected request. *)
Inductive effect (st : StudentStore)
  : Route → Request → Response → StudentStore → Prop :=
| effect_create r s :
    Body r = Some s → Validate s = [] →
    effect st POST_students r
      {| StatusCode := StatusCreated;
         Payload := [Json (json_of_Student (setID s (nextID st)))] |}
      {| students := <[nextID st := setID s (nextID st)]> (students st);
         nextID := GoInt.incr (nextID st) |}
| effect_update r id s old :
    pathID r = Some id → Body r = Some s → Validate s = [] →
    students st !! id = Some old →
    effect st PUT_student r
      {| StatusCode := StatusOK;
         Payload := [Json (json_of_Student (setID s id))] |}
      {| students := <[id := setID s id]> (students st);
         nextID := nextID st |}
| effect_delete r id old :
    pathID r = Some id → students st !! id = Some old →
    effect st DELETE_student r
      {| StatusCode := StatusNoContent; Payload := [] |}
      {| students := delete id (students st); nextID := nextID st |}
| effect_read rt r body :
    rt = GET_students ∨ rt = GET_student ∨ rt = GET_student_summary →
    effect st rt r {| StatusCode := StatusOK; Payload := body |} st
| effect_reject rt r code body :
    code = StatusBadRequest ∨ code = StatusNotFound →
    effect st rt r {| StatusCode := code; Payload := body |} st.

(** Requests of the examples: a body alone, and a path id with a body or
    without. *)
Definition bodyRequest (s : Student) : Request :=
  {| Vars := ∅; Body := Some s |}.
Definition idRequest (id : string) (body : option Student) : Request :=
  {| Vars := {[ "id"%string := id ]}; Body := body |}.

Definition ann : Student :=
  {| ID := 0; Name := "Ann"; Age := 20; Email := "a@b.com" |}.

Definition studentX : Student :=
  {| ID := 0; Name := "X"; Age := 5; Email := "x@x" |}.

(** The store after Ann has been created on the new store. *)
Definition annStore : StudentStore :=
  after [(POST_students, bodyRequest ann)] NewStudentStore.

(** A client that creates Ann and deletes her again, [n] times over, on a
    store whose counter is [c]: the store never holds more than one
    student. *)
Fixpoint churn (c : Z) (n : nat) : list (Route * Request) :=
  match n with
  | O => []
  | S n' =>
      (POST_students, bodyRequest ann)
      :: (DELETE_student, idRequest (Strconv.FormatInt c) None)
      :: churn (GoInt.incr c) n'
  end.

(** A reply that reports success. *)
Definition succeeded (resp : Response) : Prop :=
  StatusCode resp = StatusOK ∨ StatusCode resp = StatusCreated
  ∨ StatusCode resp = StatusNoContent.

(** The two invariants of the store. *)
Definition all_valid (st : StudentStore) : Prop :=
  ∀ i s, students st !! i = Some s → Validate s = [].
Definition keyed_by_ID (st : StudentStore) : Prop :=
  ∀ i s, students st !! i = Some s → ID s = i.

(** The routes whose handler reads the path variable [id]. *)
Definition reads_id (rt : Route) : bool :=
  match rt with
  | POST_students | GET_students => false
  | GET_student | PUT_student | DELETE_student | GET_student_summary => true
  end.

(** The three plain-text replies and the reply to a body that fails
    validation. *)
Definition invalidID : Response :=
  {| StatusCode := StatusBadRequest; Payload := [Text "Invalid ID"] |}.
Definition invalidBody : Response :=
  {| StatusCode := StatusBadRequest;
     Payload := [Text "Invalid request body"] |}.
Definition notFound : Response :=
  {| StatusCode := StatusNotFound; Payload := [Text "Student not found"] |}.
Definition validationFailed (errors : list ValidationError) : Response :=
  {| StatusCode := StatusBadRequest;
     Payload := [Json (JArray (json_of_ValidationError <$> errors))] |}.

(** A path segment that begins with a decimal digit. *)
Definition leadingDigit (s : string) : bool :=
  match s with
  | EmptyString => false
  | String c _ =>
      match Strconv.digit c with Some _ => true | None => false end
  end.

(** How many replies of a run carry a given status. *)
Definition countStatus (code : Z) (resps : list Response) : nat :=
  length (filter (λ resp, StatusCode resp = code) resps).

(** The counter and the keys of the store are [int]s. *)
Definition ints_in_range (st : StudentStore) : Prop :=
  GoInt.in_range (nextID st)
  ∧ ∀ i, is_Some (students st !! i) → GoInt.in_range i.

(** A body that decodes and breaks the three rules. *)
Definition blankStudent : Student :=
  {| ID := 0; Name := EmptyString; Age := 200; Email := EmptyString |}.

(** A student whose name holds the byte FF, which is not UTF-8. *)
Definition studentFF : Student :=
  {| ID := 3;
     Name := String "A" (String (ascii_of_nat 255) (String "B" EmptyString));
     Age := 20; Email := "a@b.com" |}.

(** * Properties *)

(** ** Go's [int] and [strconv] *)

Lemma wrap_in_range z : GoInt.in_range z → GoInt.wrap z = z.
Proof.
  unfold GoInt.in_range, GoInt.wrap, GoInt.min_int, GoInt.max_int,
    GoInt.int_size.
  intros H. rewrite Z.mod_small; lia.
Qed.

Lemma wrap_range z : GoInt.in_range (GoInt.wrap z).
Proof.
  unfold GoInt.in_range, GoInt.wrap, GoInt.min_int, GoInt.max_int,
    GoInt.int_size.
  pose proof (Z.mod_pos_bound (z - - 2 ^ (64 - 1)) (2 ^ 64)). lia.
Qed.

Lemma wrap_add_l a b : GoInt.wrap (GoInt.wrap a + b) = GoInt.wrap (a + b).
Proof.
  unfold GoInt.wrap. f_equal.
  replace ((a - GoInt.min_int) mod 2 ^ GoInt.int_size + GoInt.min_int + b
             - GoInt.min_int)
    with ((a - GoInt.min_int) mod 2 ^ GoInt.int_size + b) by lia.
  replace (a + b - GoInt.min_int) with ((a - GoInt.min_int) + b) by lia.
  apply Zplus_mod_idemp_l.
Qed.

Lemma digits_of_uint_acc d acc :
  Strconv.digits (Z.pos acc) (NilEmpty.string_of_uint d) =
    Some (Z.pos (Pos.of_uint_acc d acc)).
Proof.
  revert acc. induction d; intros acc; simpl; try reflexivity;
    rewrite <- IHd; f_equal; lia.
Qed.

Lemma digits_of_uint d :
  Strconv.digits 0 (NilEmpty.string_of_uint d) = Some (Z.of_N (Pos.of_uint d)).
Proof.
  induction d; simpl; try reflexivity; try assumption;
    rewrite <- digits_of_uint_acc; reflexivity.
Qed.

Lemma digits_to_uint p :
  Strconv.digits 0 (NilEmpty.string_of_uint (Pos.to_uint p)) = Some (Z.pos p).
Proof. rewrite digits_of_uint, DecimalPos.Unsigned.of_to. reflexivity. Qed.

Lemma in_range_test z :
  GoInt.in_range z →
  (GoInt.min_int <=? z) && (z <=? GoInt.max_int) = true.
Proof.
  unfold GoInt.in_range. intros [Hlo Hhi].
  apply andb_true_intro; split; apply Z.leb_le; assumption.
Qed.

Lemma string_of_uint_head d :
  d ≠ Nil →
  ∃ c rest, NilEmpty.string_of_uint d = String c rest
            ∧ Ascii.eqb c "-" = false ∧ Ascii.eqb c "+" = false.
Proof.
  destruct d; intros Hd; try congruence; simpl; eauto.
Qed.

(** Every [int] is read back by [Atoi] from its decimal rendering, so every
    id the store can hold is addressable in a path. *)
Lemma Atoi_FormatInt z :
  GoInt.in_range z → Strconv.Atoi (Strconv.FormatInt z) = Some z.
Proof.
  intros Hz. unfold Strconv.FormatInt.
  destruct z as [|p|p]; [reflexivity| |]; simpl.
  - pose proof (DecimalPos.Unsigned.to_uint_nonnil p) as Hnil.
    pose proof (digits_to_uint p) as Hd.
    destruct (string_of_uint_head _ Hnil) as (c & rest & Hs & Hm & Hp).
    unfold NilZero.string_of_uint.
    destruct (Pos.to_uint p) eqn:Hu; try congruence;
      rewrite Hs in *; unfold Strconv.Atoi; rewrite Hm, Hp; simpl orb;
      cbv iota; rewrite Hd, (in_range_test _ Hz); reflexivity.
  - pose proof (DecimalPos.Unsigned.to_uint_nonnil p) as Hnil.
    pose proof (digits_to_uint p) as Hd.
    destruct (string_of_uint_head _ Hnil) as (c & rest & Hs & _ & _).
    unfold NilZero.string_of_uint.
    destruct (Pos.to_uint p) eqn:Hu; try congruence;
      rewrite Hs in *; rewrite Hd; cbv iota;
      change (- Z.pos p) with (Z.neg p);
      rewrite (in_range_test _ Hz); reflexivity.
Qed.

(** ** Validation *)

Lemma Validate_cases s :
  Validate s =
    (if String.eqb (Name s) EmptyString then [errName] else []) ++
    (if (Age s <? 0) || (Age s >? 150) then [errAge] else []) ++
    (if String.eqb (Email s) EmptyString then [errEmail] else []).
Proof.
  unfold Validate.
  destruct (String.eqb _ _), (_ || _), (String.eqb _ _); reflexivity.
Qed.

Lemma name_test s : String.eqb (Name s) EmptyString = false ↔ name_ok s.
Proof. unfold name_ok. rewrite String.eqb_neq. reflexivity. Qed.

Lemma email_test s : String.eqb (Email s) EmptyString = false ↔ email_ok s.
Proof. unfold email_ok. rewrite String.eqb_neq. reflexivity. Qed.

Lemma age_test s : (Age s <? 0) || (Age s >? 150) = false ↔ age_ok s.
Proof.
  unfold age_ok. rewrite orb_false_iff, Z.ltb_ge, Z.gtb_ltb, Z.ltb_ge.
  reflexivity.
Qed.

Lemma Validate_nil_iff s : Validate s = [] ↔ valid s.
Proof.
  unfold valid. rewrite <- name_test, <- age_test, <- email_test.
  rewrite Validate_cases.
  destruct (String.eqb (Name s) _), (_ || _), (String.eqb (Email s) _);
    simpl; try (split; [discriminate | intros (? & ? & ?); discriminate]).
  tauto.
Qed.

Lemma Validate_pass s :
  (0 <? length (Validate s))%nat = false ↔ Validate s = [].
Proof.
  destruct (Validate s); split; intros H;
    try reflexivity; discriminate.
Qed.

(** C1: [Validate] depends on the student alone and returns, in the order
    name, age, email, exactly one error for each rule that fails (name
    non-empty, age within 0..150 inclusive, email non-empty): no error of a
    rule that holds, none twice; and the list is empty exactly when the three
    rules hold. *)
Theorem Validate_reports_violated_rules (s : Student) :
  Validate s =
    (if decide (name_ok s) then [] else [errName]) ++
    (if decide (age_ok s) then [] else [errAge]) ++
    (if decide (email_ok s) then [] else [errEmail])
  ∧ (errName ∈ Validate s ↔ ¬ name_ok s)
  ∧ (errAge ∈ Validate s ↔ ¬ age_ok s)
  ∧ (errEmail ∈ Validate s ↔ ¬ email_ok s)
  ∧ NoDup (Validate s)
  ∧ (Validate s = [] ↔ name_ok s ∧ age_ok s ∧ email_ok s).
Proof.
  assert (Heq : Validate s =
    (if decide (name_ok s) then [] else [errName]) ++
    (if decide (age_ok s) then [] else [errAge]) ++
    (if decide (email_ok s) then [] else [errEmail])).
  { rewrite Validate_cases.
    pose proof (name_test s) as Hn. pose proof (age_test s) as Ha.
    pose proof (email_test s) as He.
    destruct (String.eqb (Name s) _), (_ || _), (String.eqb (Email s) _);
      repeat case_decide; try reflexivity; intuition congruence. }
  split; [exact Heq|].
  assert (Hne : errName ≠ errAge ∧ errName ≠ errEmail ∧ errAge ≠ errEmail)
    by (repeat split; discriminate).
  destruct Hne as (H1 & H2 & H3).
  split_and!; try apply Validate_nil_iff; rewrite Heq; clear Heq;
    repeat case_decide; simpl;
    rewrite ?NoDup_cons, ?elem_of_cons, ?elem_of_nil;
    try (split_and?; try apply NoDup_nil_2);
    rewrite ?elem_of_cons, ?elem_of_nil; intuition congruence.
Qed.

(** ** The handlers, one request at a time *)

Ltac run_handler :=
  unfold ServeHTTP, route, CreateStudent, GetAllStudents, GetStudent,
    UpdateStudent, DeleteStudent, GetStudentSummary;
  repeat match goal with
         | H : pathID _ = _ |- _ => rewrite H
         | H : Body _ = _ |- _ => rewrite H
         | H : (0 <? length (Validate _))%nat = _ |- _ => rewrite H
         end;
  unfold lookupStudent, storeStudent, deleteStudent, incrNextID, Error,
    Encode, Write, WriteHeader, getStore, putStore, getWriter, putWriter;
  unfold mbind, mret, Handler_bind, Handler_ret; simpl;
  repeat match goal with
         | H : students _ !! _ = _ |- _ => rewrite H; simpl
         end.

Lemma Create_accepts r s st :
  Body r = Some s → Validate s = [] →
  ServeHTTP POST_students r st =
    ({| StatusCode := StatusCreated;
        Payload := [Json (json_of_Student (setID s (nextID st)))] |},
     {| students := <[nextID st := setID s (nextID st)]> (students st);
        nextID := GoInt.incr (nextID st) |}).
Proof.
  intros Hb Hv. apply Validate_pass in Hv. run_handler. reflexivity.
Qed.

Lemma Get_found r id s st :
  pathID r = Some id → students st !! id = Some s →
  ServeHTTP GET_student r st =
    ({| StatusCode := StatusOK; Payload := [Json (json_of_Student s)] |}, st).
Proof. intros Hid Hs. run_handler. reflexivity. Qed.

Lemma Get_missing r id st :
  pathID r = Some id → students st !! id = None →
  ServeHTTP GET_student r st =
    ({| StatusCode := StatusNotFound;
        Payload := [Text "Student not found"] |}, st).
Proof. intros Hid Hs. run_handler. reflexivity. Qed.

Lemma Update_accepts r id s old st :
  pathID r = Some id → Body r = Some s → Validate s = [] →
  students st !! id = Some old →
  ServeHTTP PUT_student r st =
    ({| StatusCode := StatusOK;
        Payload := [Json (json_of_Student (setID s id))] |},
     {| students := <[id := setID s id]> (students st);
        nextID := nextID st |}).
Proof.
  intros Hid Hb Hv Hs. apply Validate_pass in Hv. run_handler. reflexivity.
Qed.

Lemma Update_missing r id s st :
  pathID r = Some id → Body r = Some s → Validate s = [] →
  students st !! id = None →
  ServeHTTP PUT_student r st =
    ({| StatusCode := StatusNotFound;
        Payload := [Text "Student not found"] |}, st).
Proof.
  intros Hid Hb Hv Hs. apply Validate_pass in Hv. run_handler. reflexivity.
Qed.

Lemma Delete_accepts r id old st :
  pathID r = Some id → students st !! id = Some old →
  ServeHTTP DELETE_student r st =
    ({| StatusCode := StatusNoContent; Payload := [] |},
     {| students := delete id (students st); nextID := nextID st |}).
Proof. intros Hid Hs. run_handler. reflexivity. Qed.

Lemma Delete_missing r id st :
  pathID r = Some id → students st !! id = None →
  ServeHTTP DELETE_student r st =
    ({| StatusCode := StatusNotFound;
        Payload := [Text "Student not found"] |}, st).
Proof. intros Hid Hs. run_handler. reflexivity. Qed.

Lemma Summary_found r id s st :
  pathID r = Some id → students st !! id = Some s →
  ServeHTTP GET_student_summary r st =
    ({| StatusCode := StatusOK;
        Payload := [Json (JObject [("summary"%string,
                                    JString (summaryLine s))])] |}, st).
Proof. intros Hid Hs. run_handler. reflexivity. Qed.

Lemma GetAll_reads r st :
  ServeHTTP GET_students r st =
    ({| StatusCode := StatusOK;
        Payload := [Json (JArray (json_of_Student <$>
                                    (snd <$> map_to_list (students st))))] |},
     st).
Proof. run_handler. reflexivity. Qed.

(** Every request falls in one of the cases of [effect]. *)
Lemma ServeHTTP_effect rt r st :
  effect st rt r (fst (ServeHTTP rt r st)) (snd (ServeHTTP rt r st)).
Proof.
  destruct rt.
  - destruct (Body r) as [s|] eqn:Hb;
      [destruct (0 <? length (Validate s))%nat eqn:Hv|].
    + run_handler. apply effect_reject. auto.
    + apply Validate_pass in Hv. rewrite (Create_accepts r s st Hb Hv).
      apply effect_create; assumption.
    + run_handler. apply effect_reject. auto.
  - rewrite GetAll_reads. apply effect_read. auto.
  - destruct (pathID r) as [id|] eqn:Hid;
      [destruct (students st !! id) as [s|] eqn:Hs|].
    + rewrite (Get_found r id s st Hid Hs). apply effect_read. auto.
    + rewrite (Get_missing r id st Hid Hs). apply effect_reject. auto.
    + run_handler. apply effect_reject. auto.
  - destruct (pathID r) as [id|] eqn:Hid;
      [destruct (Body r) as [s|] eqn:Hb;
       [destruct (0 <? length (Validate s))%nat eqn:Hv;
        [|destruct (students st !! id) as [old|] eqn:Hs]|]|].
    + run_handler. apply effect_reject. auto.
    + apply Validate_pass in Hv.
      rewrite (Update_accepts r id s old st Hid Hb Hv Hs).
      eapply effect_update; eassumption.
    + apply Validate_pass in Hv.
      rewrite (Update_missing r id s st Hid Hb Hv Hs).
      apply effect_reject. auto.
    + run_handler. apply effect_reject. auto.
    + run_handler. apply effect_reject. auto.
  - destruct (pathID r) as [id|] eqn:Hid;
      [destruct (students st !! id) as [old|] eqn:Hs|].
    + rewrite (Delete_accepts r id old st Hid Hs).
      eapply effect_delete; eassumption.
    + rewrite (Delete_missing r id st Hid Hs). apply effect_reject. auto.
    + run_handler. apply effect_reject. auto.
  - destruct (pathID r) as [id|] eqn:Hid;
      [destruct (students st !! id) as [s|] eqn:Hs|].
    + rewrite (Summary_found r id s st Hid Hs). apply effect_read. auto.
    + run_handler. apply effect_reject. auto.
    + run_handler. apply effect_reject. auto.
Qed.

Lemma Validate_setID s id : Validate (setID s id) = Validate s.
Proof. reflexivity. Qed.

Lemma status_codes_distinct :
  StatusOK ≠ StatusBadRequest ∧ StatusOK ≠ StatusNotFound
  ∧ StatusCreated ≠ StatusBadRequest ∧ StatusCreated ≠ StatusNotFound
  ∧ StatusNoContent ≠ StatusBadRequest ∧ StatusNoContent ≠ StatusNotFound.
Proof. repeat split; discriminate. Qed.

(** A rejected request leaves the store as it was. *)
Lemma effect_failure st rt r resp st' :
  effect st rt r resp st' →
  StatusCode resp = StatusBadRequest ∨ StatusCode resp = StatusNotFound →
  st' = st.
Proof.
  destruct 1; simpl; intros [Hc|Hc]; try reflexivity; discriminate Hc.
Qed.

(** The two invariants of the store go through every case of [effect]. *)

Lemma effect_all_valid st rt r resp st' :
  effect st rt r resp st' → all_valid st → all_valid st'.
Proof.
  unfold all_valid. destruct 1; intros Hinv i s'; simpl; try apply Hinv.
  - rewrite lookup_insert. case_decide.
    + intros [= <-]. assumption.
    + apply Hinv.
  - rewrite lookup_insert. case_decide.
    + intros [= <-]. assumption.
    + apply Hinv.
  - rewrite lookup_delete. case_decide; [discriminate|apply Hinv].
Qed.

Lemma effect_keyed_by_ID st rt r resp st' :
  effect st rt r resp st' → keyed_by_ID st → keyed_by_ID st'.
Proof.
  unfold keyed_by_ID. destruct 1; intros Hinv i s'; simpl; try apply Hinv.
  - rewrite lookup_insert. case_decide.
    + intros [= <-]. subst i. reflexivity.
    + apply Hinv.
  - rewrite lookup_insert. case_decide.
    + intros [= <-]. subst i. reflexivity.
    + apply Hinv.
  - rewrite lookup_delete. case_decide; [discriminate|apply Hinv].
Qed.

Lemma reachable_invariants st :
  reachable st → all_valid st ∧ keyed_by_ID st.
Proof.
  induction 1 as [|rt r st Hst [IHv IHk]].
  - split; intros i s; simpl; rewrite lookup_empty; discriminate.
  - pose proof (ServeHTTP_effect rt r st) as He. split.
    + eapply effect_all_valid; eassumption.
    + eapply effect_keyed_by_ID; eassumption.
Qed.

(** ** The claims on single requests *)

(** C3: when [i] is in the store and the body is a valid student [s], the
    update answers 200 and stores under [i] the record made of the name,
    age and email of [s] and of the id [i], whatever was stored before and
    whatever id the body carried; a Get of [i] right after answers 200 with
    exactly that record. *)
Theorem Update_replaces_record (st : StudentStore) (r g : Request)
    (i : Z) (s old : Student) :
  pathID r = Some i → Body r = Some s → valid s →
  students st !! i = Some old →
  pathID g = Some i →
  let stored := {| ID := i; Name := Name s; Age := Age s; Email := Email s |} in
  let st' := snd (ServeHTTP PUT_student r st) in
  fst (ServeHTTP PUT_student r st) =
    {| StatusCode := StatusOK; Payload := [Json (json_of_Student stored)] |}
  ∧ students st' !! i = Some stored
  ∧ ServeHTTP GET_student g st' =
      ({| StatusCode := StatusOK; Payload := [Json (json_of_Student stored)] |},
       st').
Proof.
  intros Hid Hb Hv Hold Hg stored st'.
  apply Validate_nil_iff in Hv.
  assert (Hst : students st' !! i = Some stored).
  { subst st'. rewrite (Update_accepts r i s old st Hid Hb Hv Hold). simpl.
    apply lookup_insert_eq. }
  split_and!.
  - rewrite (Update_accepts r i s old st Hid Hb Hv Hold). reflexivity.
  - exact Hst.
  - apply (Get_found g i stored st' Hg Hst).
Qed.

(** C4: for an id [i] that the store does not hold, Get, Update (with a
    valid body) and Delete answer 404 and leave the store alone, whatever
    else the store holds: two stores that both lack [i] get the same reply
    to the same request.  And after a Delete of [i], in any store, a Get of
    [i] answers 404. *)
Theorem missing_id_not_found (i : Z) :
  let notFound :=
    {| StatusCode := StatusNotFound; Payload := [Text "Student not found"] |} in
  (∀ st r, students st !! i = None → pathID r = Some i →
     ServeHTTP GET_student r st = (notFound, st))
  ∧ (∀ st r s, students st !! i = None → pathID r = Some i →
       Body r = Some s → valid s →
       ServeHTTP PUT_student r st = (notFound, st))
  ∧ (∀ st r, students st !! i = None → pathID r = Some i →
       ServeHTTP DELETE_student r st = (notFound, st))
  ∧ (∀ st1 st2 rt r,
       students st1 !! i = None → students st2 !! i = None →
       pathID r = Some i →
       rt = GET_student ∨ rt = PUT_student ∨ rt = DELETE_student →
       fst (ServeHTTP rt r st1) = fst (ServeHTTP rt r st2))
  ∧ (∀ st r g, pathID r = Some i → pathID g = Some i →
       fst (ServeHTTP GET_student g (snd (ServeHTTP DELETE_student r st))) =
         notFound).
Proof.
  intros notFound. split_and!.
  - intros st r Hs Hid. apply (Get_missing r i st Hid Hs).
  - intros st r s Hs Hid Hb Hv. apply Validate_nil_iff in Hv.
    apply (Update_missing r i s st Hid Hb Hv Hs).
  - intros st r Hs Hid. apply (Delete_missing r i st Hid Hs).
  - intros st1 st2 rt r H1 H2 Hid [->|[->| ->]].
    + rewrite (Get_missing r i st1 Hid H1), (Get_missing r i st2 Hid H2).
      reflexivity.
    + destruct (Body r) as [s|] eqn:Hb;
        [destruct (0 <? length (Validate s))%nat eqn:Hv|].
      * run_handler. reflexivity.
      * apply Validate_pass in Hv.
        rewrite (Update_missing r i s st1 Hid Hb Hv H1),
          (Update_missing r i s st2 Hid Hb Hv H2). reflexivity.
      * run_handler. reflexivity.
    + rewrite (Delete_missing r i st1 Hid H1), (Delete_missing r i st2 Hid H2).
      reflexivity.
  - intros st r g Hr Hg.
    assert (Hgone : students (snd (ServeHTTP DELETE_student r st)) !! i = None).
    { destruct (students st !! i) as [old|] eqn:Hs.
      - rewrite (Delete_accepts r i old st Hr Hs). simpl.
        apply lookup_delete_eq.
      - rewrite (Delete_missing r i st Hr Hs). exact Hs. }
    rewrite (Get_missing g i _ Hg Hgone). reflexivity.
Qed.

(** C5: a reply with a failure status, 400 or 404, comes with the store,
    map and counter, exactly as it was before the request; and every reply
    is either one of these or a success, 200, 201 or 204. *)
Theorem failure_leaves_store (rt : Route) (r : Request) (st : StudentStore) :
  let resp := fst (ServeHTTP rt r st) in
  (StatusCode resp = StatusBadRequest ∨ StatusCode resp = StatusNotFound →
   snd (ServeHTTP rt r st) = st)
  ∧ (StatusCode resp ∈ [StatusOK; StatusCreated; StatusNoContent]
     ∨ StatusCode resp ∈ [StatusBadRequest; StatusNotFound]).
Proof.
  intros resp. subst resp. pose proof (ServeHTTP_effect rt r st) as He. split.
  - apply (effect_failure _ _ _ _ _ He).
  - destruct He as [| | | |rt r code body Hcode]; simpl;
      [left|left|left|left|right]; rewrite !elem_of_cons; tauto.
Qed.

(** C6: every student held in a store that the server can reach from the
    new store passes [Validate]: the name is not empty, the age is within
    0..150, the email is not empty. *)
Theorem stored_students_valid (st : StudentStore) (i : Z) (s : Student) :
  reachable st → students st !! i = Some s →
  Validate s = [] ∧ Name s ≠ EmptyString ∧ 0 ≤ Age s ≤ 150
  ∧ Email s ≠ EmptyString.
Proof.
  intros Hst Hs. destruct (reachable_invariants st Hst) as [Hv _].
  split; [|apply Validate_nil_iff]; apply (Hv i s Hs).
Qed.

(** C9: in every store that the server can reach from the new store, the
    student stored under a key carries that key as its ID. *)
Theorem stored_key_is_ID (st : StudentStore) (i : Z) (s : Student) :
  reachable st → students st !! i = Some s → ID s = i.
Proof.
  intros Hst Hs. destruct (reachable_invariants st Hst) as [_ Hk].
  apply (Hk i s Hs).
Qed.

(** C7: for a student stored under [i], a summary request whose path
    variable reads as [i] is answered 200 with the JSON object whose one
    field, summary, is the sentence built from the name, the age in decimal
    and the email; the store is left alone.  On the new store, creating Ann
    (20, a@b.com) and asking for the summary of 1 gives her sentence. *)
Theorem summary_of_stored_student (st : StudentStore) (r : Request)
    (i : Z) (s : Student) :
  students st !! i = Some s → pathID r = Some i →
  ServeHTTP GET_student_summary r st =
    ({| StatusCode := StatusOK;
        Payload :=
          [Json (JObject
             [("summary"%string,
               JString ("Student " +:+ Name s +:+ " is " +:+
                        Strconv.FormatInt (Age s) +:+
                        " years old with email " +:+ Email s +:+ "."))])] |},
     st)
  ∧ replies
      [(POST_students,
        {| Vars := ∅;
           Body := Some {| ID := 0; Name := "Ann"; Age := 20;
                           Email := "a@b.com" |} |});
       (GET_student_summary,
        {| Vars := {[ "id"%string := "1"%string ]}; Body := None |})]
      NewStudentStore =
    [{| StatusCode := StatusCreated;
        Payload := [Json (JObject [("id", JNumber 1); ("name", JString "Ann");
                                   ("age", JNumber 20);
                                   ("email", JString "a@b.com")]%string)] |};
     {| StatusCode := StatusOK;
        Payload :=
          [Json (JObject
             [("summary"%string,
               JString "Student Ann is 20 years old with email a@b.com.")])] |}].
Proof.
  intros Hs Hid. split.
  - apply (Summary_found r i s st Hid Hs).
  - vm_compute. reflexivity.
Qed.

Lemma effect_update_inv st r resp st' i :
  effect st PUT_student r resp st' →
  pathID r = Some i → StatusCode resp = StatusOK →
  ∃ s, Body r = Some s ∧ Validate s = [] ∧ is_Some (students st !! i)
       ∧ st' = {| students := <[i := setID s i]> (students st);
                  nextID := nextID st |}.
Proof.
  intros He. remember PUT_student as rt eqn:Hrt.
  destruct He as [|r id s old Hid' Hb Hv Hold| |rt r body Hread
                  |rt r code body Hcode]; intros Hid Hok;
    try discriminate Hrt.
  - rewrite Hid in Hid'. injection Hid' as <-.
    exists s. rewrite Hold. eauto.
  - subst rt. destruct Hread as [?|[?|?]]; discriminate.
  - simpl in Hok. destruct Hcode; subst code; discriminate.
Qed.

Lemma effect_delete_inv st r resp st' i :
  effect st DELETE_student r resp st' →
  pathID r = Some i → StatusCode resp = StatusNoContent →
  is_Some (students st !! i)
  ∧ st' = {| students := delete i (students st); nextID := nextID st |}.
Proof.
  intros He. remember DELETE_student as rt eqn:Hrt.
  destruct He as [| |r id old Hid' Hold|rt r body Hread
                  |rt r code body Hcode]; intros Hid Hok;
    try discriminate Hrt.
  - rewrite Hid in Hid'. injection Hid' as <-. rewrite Hold. eauto.
  - discriminate Hok.
  - simpl in Hok. destruct Hcode; subst code; discriminate.
Qed.

Lemma Update_success r st i :
  pathID r = Some i →
  StatusCode (fst (ServeHTTP PUT_student r st)) = StatusOK →
  ∃ s, Body r = Some s ∧ Validate s = [] ∧ is_Some (students st !! i)
       ∧ snd (ServeHTTP PUT_student r st) =
           {| students := <[i := setID s i]> (students st);
              nextID := nextID st |}.
Proof. apply effect_update_inv, ServeHTTP_effect. Qed.

Lemma Delete_success r st i :
  pathID r = Some i →
  StatusCode (fst (ServeHTTP DELETE_student r st)) = StatusNoContent →
  is_Some (students st !! i)
  ∧ snd (ServeHTTP DELETE_student r st) =
      {| students := delete i (students st); nextID := nextID st |}.
Proof. apply effect_delete_inv, ServeHTTP_effect. Qed.

Lemma reads_keep_store rt r st :
  rt = GET_students ∨ rt = GET_student ∨ rt = GET_student_summary →
  snd (ServeHTTP rt r st) = st.
Proof.
  intros Hrt. pose proof (ServeHTTP_effect rt r st) as He.
  destruct He; try reflexivity; destruct Hrt as [?|[?|?]]; discriminate.
Qed.

(** C10: an Update of [i] answered 200 and a Delete of [i] answered 204
    leave what is stored under every other key as it was, and the Update
    leaves the counter as it was; GetAll, Get and Summary leave the whole
    store, map and counter, as it was. *)
Theorem handlers_frame :
  (∀ st r i j,
     pathID r = Some i →
     StatusCode (fst (ServeHTTP PUT_student r st)) = StatusOK →
     (j ≠ i →
      students (snd (ServeHTTP PUT_student r st)) !! j = students st !! j)
     ∧ nextID (snd (ServeHTTP PUT_student r st)) = nextID st)
  ∧ (∀ st r i j,
       pathID r = Some i →
       StatusCode (fst (ServeHTTP DELETE_student r st)) = StatusNoContent →
       j ≠ i →
       students (snd (ServeHTTP DELETE_student r st)) !! j = students st !! j)
  ∧ (∀ st r, snd (ServeHTTP GET_students r st) = st)
  ∧ (∀ st r, snd (ServeHTTP GET_student r st) = st)
  ∧ (∀ st r, snd (ServeHTTP GET_student_summary r st) = st).
Proof.
  split_and!.
  - intros st r i j Hid Hok.
    destruct (Update_success r st i Hid Hok) as (s & _ & _ & _ & ->). simpl.
    split; [|reflexivity]. intros Hne. apply lookup_insert_ne. congruence.
  - intros st r i j Hid Hok Hne.
    destruct (Delete_success r st i Hid Hok) as (_ & ->). simpl.
    apply lookup_delete_ne. congruence.
  - intros st r. apply reads_keep_store. auto.
  - intros st r. apply reads_keep_store. auto.
  - intros st r. apply reads_keep_store. auto.
Qed.

(** ** The Ollama client *)

Lemma append_cons c (a b : string) : String c a +:+ b = String c (a +:+ b).
Proof. reflexivity. Qed.

Lemma append_empty_r (a : string) : a +:+ EmptyString = a.
Proof.
  induction a as [|c a IH]; [reflexivity|].
  rewrite append_cons, IH. reflexivity.
Qed.

(** A well-formed prefix goes through unchanged, and the bytes after it are
    treated on their own. *)
Lemma toValid_app_valid (a b : string) :
  Utf8.valid a = true → Utf8.toValid (a +:+ b) = a +:+ Utf8.toValid b.
Proof.
  remember (String.length a) as n eqn:Hn.
  revert a Hn. induction n as [n IH] using lt_wf_ind. intros a Hn Hv.
  destruct a as [|b0 rest]; [reflexivity|].
  rewrite append_cons. simpl in Hv |- *.
  destruct (Utf8.lead b0) as [| | |lo hi|lo hi].
  - rewrite append_cons. f_equal.
    apply (IH (String.length rest)); [simpl in Hn; lia|reflexivity|exact Hv].
  - discriminate Hv.
  - destruct rest as [|b1 r1]; [discriminate Hv|].
    apply andb_prop in Hv as [H1 Hv].
    rewrite !append_cons, H1. do 2 f_equal.
    apply (IH (String.length r1)); [simpl in Hn; lia|reflexivity|exact Hv].
  - destruct rest as [|b1 [|b2 r2]]; try discriminate Hv.
    apply andb_prop in Hv as [H12 Hv].
    rewrite !append_cons, H12. do 3 f_equal.
    apply (IH (String.length r2)); [simpl in Hn; lia|reflexivity|exact Hv].
  - destruct rest as [|b1 [|b2 [|b3 r3]]]; try discriminate Hv.
    apply andb_prop in Hv as [H123 Hv].
    rewrite !append_cons, H123. do 4 f_equal.
    apply (IH (String.length r3)); [simpl in Hn; lia|reflexivity|exact Hv].
Qed.

Lemma toValid_valid (a : string) :
  Utf8.valid a = true → Utf8.toValid a = a.
Proof.
  intros Hv. rewrite <- (append_empty_r a) at 1.
  rewrite (toValid_app_valid a EmptyString Hv). apply append_empty_r.
Qed.

Lemma valid_string_of_uint d : Utf8.valid (NilEmpty.string_of_uint d) = true.
Proof. induction d; simpl; auto. Qed.

Lemma valid_FormatInt z : Utf8.valid (Strconv.FormatInt z) = true.
Proof.
  unfold Strconv.FormatInt.
  destruct z as [|p|p]; [reflexivity| |];
    simpl; unfold NilZero.string_of_uint;
    destruct (Pos.to_uint p) eqn:Hp; try reflexivity;
    rewrite <- Hp; apply valid_string_of_uint.
Qed.

(** A prompt built from a well-formed name and email is well formed, and
    is posted as it is. *)
Lemma toValid_promptOf student :
  Utf8.valid (Name student) = true → Utf8.valid (Email student) = true →
  Utf8.toValid (Ollama.promptOf student) = Ollama.promptOf student.
Proof.
  intros Hname Hemail. unfold Ollama.promptOf.
  repeat (rewrite toValid_app_valid;
          [f_equal
          |first [reflexivity|exact Hname|apply valid_FormatInt]]).
  apply toValid_valid, Hemail.
Qed.

(** C8, as the code has it: the prompt puts the name, the age and the email
    on three lines after the heading, each introduced by a line feed; the
    function posts the model llama2 and that prompt as JSON to
    baseURL/api/generate, where [json.Marshal] has replaced each byte of the
    prompt that is not well-formed UTF-8 by U+FFFD, and returns the response
    field of the decoded reply, or the transport or decoding error with an
    empty string.  When the name and the email are well-formed UTF-8 the
    prompt is posted exactly as built. *)
Theorem GenerateStudentSummary_relays (c : Ollama.OllamaClient)
    (student : Student) :
  Ollama.relays
    (λ s, Utf8.toValid
            ("Generate a brief summary of this student:" +:+ Ollama.LF +:+
             "Name: " +:+ Name s +:+ Ollama.LF +:+
             "Age: " +:+ Strconv.FormatInt (Age s) +:+ Ollama.LF +:+
             "Email: " +:+ Email s))
    c student
  ∧ (Utf8.valid (Name student) = true → Utf8.valid (Email student) = true →
     Ollama.relays
       (λ s, "Generate a brief summary of this student:" +:+ Ollama.LF +:+
             "Name: " +:+ Name s +:+ Ollama.LF +:+
             "Age: " +:+ Strconv.FormatInt (Age s) +:+ Ollama.LF +:+
             "Email: " +:+ Email s)
       c student).
Proof.
  assert (Hposted : Ollama.relays (λ s, Utf8.toValid (Ollama.promptOf s))
                      c student).
  { unfold Ollama.relays, Ollama.GenerateStudentSummary, Ollama.Marshal.
    cbn [Ollama.Model Ollama.Prompt].
    eexists. split; [reflexivity|]. split_and!; reflexivity. }
  split; [exact Hposted|].
  intros Hname Hemail. unfold Ollama.relays in *.
  rewrite (toValid_promptOf student Hname Hemail) in Hposted.
  exact Hposted.
Qed.

(** C8 as stated fails twice.  As the specification words the prompt (one
    line, fields separated by commas), it is not what is posted for Ann.
    And the prompt that the code builds is not what is posted either when
    the name holds a byte that is not UTF-8: for the name A, FF, B the
    posted prompt has U+FFFD in place of FF. *)
Lemma prompt_not_as_worded :
  ¬ Ollama.relays Ollama.specPrompt
      {| Ollama.baseURL := "http://localhost:11434" |}
      {| ID := 1; Name := "Ann"; Age := 20; Email := "a@b.com" |}
  ∧ ¬ Ollama.relays Ollama.promptOf
        {| Ollama.baseURL := "http://localhost:11434" |} studentFF.
Proof.
  split; intros (k & Hpost & _); vm_compute in Hpost; discriminate Hpost.
Qed.

(** ** Runs of the server and the ids they hand out *)

Lemma serveAll_cons rt r reqs st :
  serveAll ((rt, r) :: reqs) st =
    (fst (ServeHTTP rt r st) :: replies reqs (snd (ServeHTTP rt r st)),
     after reqs (snd (ServeHTTP rt r st))).
Proof.
  unfold replies, after. simpl.
  destruct (ServeHTTP rt r st) as [resp st1]. simpl.
  destruct (serveAll reqs st1). reflexivity.
Qed.

Lemma replies_cons rt r reqs st :
  replies ((rt, r) :: reqs) st =
    fst (ServeHTTP rt r st) :: replies reqs (snd (ServeHTTP rt r st)).
Proof. unfold replies at 1. rewrite serveAll_cons. reflexivity. Qed.

Lemma after_cons rt r reqs st :
  after ((rt, r) :: reqs) st = after reqs (snd (ServeHTTP rt r st)).
Proof. unfold after at 1. rewrite serveAll_cons. reflexivity. Qed.

Lemma replies_app reqs1 reqs2 st :
  replies (reqs1 ++ reqs2) st =
    replies reqs1 st ++ replies reqs2 (after reqs1 st).
Proof.
  revert st. induction reqs1 as [|[rt r] reqs1 IH]; intros st.
  - reflexivity.
  - simpl app. rewrite !replies_cons, after_cons, IH. reflexivity.
Qed.

Lemma after_app reqs1 reqs2 st :
  after (reqs1 ++ reqs2) st = after reqs2 (after reqs1 st).
Proof.
  revert st. induction reqs1 as [|[rt r] reqs1 IH]; intros st.
  - reflexivity.
  - simpl app. rewrite !after_cons, IH. reflexivity.
Qed.

Lemma after_reachable reqs st : reachable st → reachable (after reqs st).
Proof.
  revert st. induction reqs as [|[rt r] reqs IH]; intros st Hst.
  - exact Hst.
  - rewrite after_cons. apply IH, reachable_serve, Hst.
Qed.

(** The reachable stores are the ones at the end of a run of requests on
    the new store. *)
Lemma reachable_run st :
  reachable st ↔ ∃ reqs, st = after reqs NewStudentStore.
Proof.
  split.
  - induction 1 as [|rt r st _ [reqs ->]].
    + exists []. reflexivity.
    + exists (reqs ++ [(rt, r)]). rewrite after_app, after_cons. reflexivity.
  - intros [reqs ->]. apply after_reachable, reachable_new.
Qed.

Lemma createdIDs_cons resp resps :
  createdIDs (resp :: resps) =
    match created_id resp with
    | Some id => id :: createdIDs resps
    | None => createdIDs resps
    end.
Proof. reflexivity. Qed.

Lemma createdIDs_app resps1 resps2 :
  createdIDs (resps1 ++ resps2) = createdIDs resps1 ++ createdIDs resps2.
Proof. apply omap_app. Qed.

(** A request either hands out the current [nextID] and advances the
    counter, or hands out nothing and leaves the counter. *)
Lemma effect_counter st rt r resp st' :
  effect st rt r resp st' →
  (created_id resp = Some (nextID st) ∧ nextID st' = GoInt.incr (nextID st))
  ∨ (created_id resp = None ∧ nextID st' = nextID st).
Proof.
  destruct 1 as [| | | |rt r code body [-> | ->]];
    [left|right|right|right|right|right]; split; reflexivity.
Qed.

(** A key of the store was there before the request or has just been
    handed out. *)
Lemma effect_keys st rt r resp st' j :
  effect st rt r resp st' →
  is_Some (students st' !! j) →
  is_Some (students st !! j) ∨ created_id resp = Some j.
Proof.
  destruct 1 as [r s Hb Hv|r id s old Hid Hb Hv Hold|r id old Hid Hold| |];
    simpl; auto.
  - rewrite lookup_insert. case_decide; [subst j|]; auto.
  - rewrite lookup_insert. case_decide; [subst j; rewrite Hold|]; auto.
  - rewrite lookup_delete. case_decide; [intros [? [=]]|auto].
Qed.

Lemma run_keys reqs st j :
  is_Some (students (after reqs st) !! j) →
  is_Some (students st !! j) ∨ j ∈ createdIDs (replies reqs st).
Proof.
  revert st. induction reqs as [|[rt r] reqs IH]; intros st.
  - auto.
  - rewrite after_cons, replies_cons, createdIDs_cons. intros Hj.
    destruct (IH _ Hj) as [Hj1|Hj1].
    + destruct (effect_keys _ _ _ _ _ j (ServeHTTP_effect rt r st) Hj1)
        as [Hj0| ->]; [auto|]. right. left.
    + right. destruct (created_id _); [right|]; exact Hj1.
Qed.

(** The ids of a run, counter wrap-around included: the k-th id handed out
    is the counter at the start advanced k times. *)
Lemma run_ids reqs st :
  GoInt.in_range (nextID st) →
  let ids := createdIDs (replies reqs st) in
  ids = (λ k, GoInt.wrap (nextID st + Z.of_nat k)) <$> seq 0 (length ids)
  ∧ nextID (after reqs st) = GoInt.wrap (nextID st + Z.of_nat (length ids)).
Proof.
  revert st. induction reqs as [|[rt r] reqs IH]; intros st Hst.
  - simpl. split; [reflexivity|].
    rewrite Z.add_0_r, wrap_in_range; [reflexivity|exact Hst].
  - cbv zeta. rewrite after_cons, replies_cons, createdIDs_cons.
    destruct (effect_counter _ _ _ _ _ (ServeHTTP_effect rt r st))
      as [[-> Hn]|[-> Hn]].
    + assert (Hst1 : GoInt.in_range (nextID (snd (ServeHTTP rt r st))))
        by (rewrite Hn; apply wrap_range).
      destruct (IH _ Hst1) as [Hids Hafter]. rewrite Hafter, Hn.
      set (ids' := createdIDs (replies reqs (snd (ServeHTTP rt r st)))) in *.
      simpl length. split.
      * simpl seq. rewrite fmap_cons, Z.add_0_r, (wrap_in_range _ Hst).
        f_equal. rewrite <- fmap_S_seq, <- list_fmap_compose.
        rewrite Hids at 1. rewrite Hn. apply list_fmap_ext.
        intros _ k _. simpl. unfold GoInt.incr. rewrite wrap_add_l.
        f_equal. lia.
      * unfold GoInt.incr. rewrite wrap_add_l. f_equal. lia.
    + assert (Hst1 : GoInt.in_range (nextID (snd (ServeHTTP rt r st))))
        by (rewrite Hn; exact Hst).
      destruct (IH _ Hst1) as [Hids Hafter]. rewrite Hafter, Hn.
      split; [|reflexivity]. rewrite Hids at 1. rewrite Hn. reflexivity.
Qed.

Lemma new_store_in_range : GoInt.in_range (nextID NewStudentStore).
Proof. unfold GoInt.in_range. simpl. split; discriminate. Qed.

(** Below the largest [int] the counter does not wrap: a run from the new
    store hands out 1, 2, ..., n. *)
Lemma run_ids_new reqs :
  let ids := createdIDs (replies reqs NewStudentStore) in
  Z.of_nat (length ids) ≤ GoInt.max_int →
  ids = firstIDs (length ids).
Proof.
  intros ids Hbound.
  destruct (run_ids reqs _ new_store_in_range) as [Hids _].
  fold ids in Hids. rewrite Hids at 1. unfold firstIDs.
  rewrite <- fmap_S_seq, <- list_fmap_compose.
  apply list_fmap_ext. intros j k Hk. simpl.
  apply lookup_seq in Hk as [-> Hk].
  rewrite wrap_in_range; [lia|].
  unfold GoInt.in_range, GoInt.min_int in *. simpl. lia.
Qed.

Lemma firstIDs_lookup n k x : firstIDs n !! k = Some x → x = Z.of_nat (S k).
Proof.
  unfold firstIDs. rewrite list_lookup_fmap.
  destruct (seq 1 n !! k) as [y|] eqn:Hy; simpl; [|discriminate].
  apply lookup_seq in Hy as [-> _]. intros [= <-]. reflexivity.
Qed.

Lemma created_id_no_content resp :
  StatusCode resp = StatusNoContent → created_id resp = None.
Proof. unfold created_id. intros ->. reflexivity. Qed.

(** The wrap-around tells apart integers less than 2^64 apart. *)
Lemma wrap_window_inj a b :
  GoInt.wrap a = GoInt.wrap b →
  - 2 ^ GoInt.int_size < a - b < 2 ^ GoInt.int_size → a = b.
Proof.
  unfold GoInt.wrap, GoInt.min_int, GoInt.int_size.
  change (2 ^ 64) with 18446744073709551616.
  change (2 ^ (64 - 1)) with 9223372036854775808.
  intros Heq Hwin.
  pose proof (Z.div_mod (a - Z.opp 9223372036854775808) 18446744073709551616
                ltac:(lia)) as Ha.
  pose proof (Z.div_mod (b - Z.opp 9223372036854775808) 18446744073709551616
                ltac:(lia)) as Hb.
  lia.
Qed.

(** In a list of at most 2^64 consecutive values of the counter, what
    occurs in a prefix does not occur after it. *)
Lemma wrapped_app_r l1 l2 c n i :
  l1 ++ l2 = (λ k, GoInt.wrap (c + Z.of_nat k)) <$> seq 0 n →
  Z.of_nat n ≤ 2 ^ GoInt.int_size →
  i ∈ l1 → i ∉ l2.
Proof.
  intros Happ Hn Hi1 Hi2.
  apply list_elem_of_lookup in Hi1 as [k1 Hk1].
  apply list_elem_of_lookup in Hi2 as [k2 Hk2].
  assert (Hlen : (k1 < length l1)%nat)
    by (eapply lookup_lt_Some; exact Hk1).
  assert (H1 : (l1 ++ l2) !! k1 = Some i)
    by (apply lookup_app_l_Some; exact Hk1).
  assert (H2 : (l1 ++ l2) !! (length l1 + k2)%nat = Some i)
    by (rewrite lookup_app_r, Nat.add_comm, Nat.add_sub by lia; exact Hk2).
  rewrite Happ, list_lookup_fmap in H1, H2.
  destruct (seq 0 n !! k1) as [j1|] eqn:Hj1; [|discriminate H1].
  destruct (seq 0 n !! (length l1 + k2)%nat) as [j2|] eqn:Hj2;
    [|discriminate H2].
  apply lookup_seq in Hj1 as [-> Hlt1]. apply lookup_seq in Hj2 as [-> Hlt2].
  simpl in H1, H2. injection H1 as H1. injection H2 as H2.
  rewrite <- H2 in H1. apply wrap_window_inj in H1; lia.
Qed.

(** C2, within the range of [int]: a Create with a valid body answers 201
    with the record under the id [nextID] of the store, whatever id the body
    carried; as long as a run from the new store hands out no more than
    [max_int] ids, these are 1, 2, 3, ... in creation order, each larger
    than the ones before; and as long as a run hands out no more than 2^64
    ids, an id removed by a successful Delete is not handed out by any
    Create after it. *)
Theorem Create_ids_fresh_store :
  (∀ st r s,
     Body r = Some s → valid s →
     fst (ServeHTTP POST_students r st) =
       {| StatusCode := StatusCreated;
          Payload := [Json (json_of_Student
            {| ID := nextID st; Name := Name s; Age := Age s;
               Email := Email s |})] |}
     ∧ created_id (fst (ServeHTTP POST_students r st)) = Some (nextID st))
  ∧ (∀ reqs,
       let ids := createdIDs (replies reqs NewStudentStore) in
       Z.of_nat (length ids) ≤ GoInt.max_int →
       ids = firstIDs (length ids)
       ∧ ∀ a b x y, (a < b)%nat → ids !! a = Some x → ids !! b = Some y →
                    x < y)
  ∧ (∀ reqs1 r reqs2 i,
       let st1 := after reqs1 NewStudentStore in
       let st2 := snd (ServeHTTP DELETE_student r st1) in
       pathID r = Some i →
       StatusCode (fst (ServeHTTP DELETE_student r st1)) = StatusNoContent →
       Z.of_nat (length (createdIDs
         (replies (reqs1 ++ (DELETE_student, r) :: reqs2) NewStudentStore)))
         ≤ 2 ^ GoInt.int_size →
       i ∉ createdIDs (replies reqs2 st2)).
Proof.
  split_and!.
  - intros st r s Hb Hv. apply Validate_nil_iff in Hv.
    rewrite (Create_accepts r s st Hb Hv). split; reflexivity.
  - intros reqs ids Hbound.
    pose proof (run_ids_new reqs Hbound) as Hids. fold ids in Hids.
    split; [exact Hids|].
    intros a b x y Hab Ha Hb. rewrite Hids in Ha, Hb.
    apply firstIDs_lookup in Ha, Hb. lia.
  - intros reqs1 r reqs2 i st1 st2 Hid Hok Hbound.
    rewrite replies_app, replies_cons, createdIDs_app, createdIDs_cons in Hbound.
    destruct (run_ids (reqs1 ++ (DELETE_student, r) :: reqs2) _
                new_store_in_range) as [Hall _].
    rewrite replies_app, replies_cons, createdIDs_app, createdIDs_cons in Hall.
    fold st1 in Hbound, Hall.
    rewrite (created_id_no_content _ Hok) in Hbound, Hall.
    fold st2 in Hbound, Hall.
    destruct (Delete_success r st1 i Hid Hok) as [Hin _].
    apply run_keys in Hin as [Hin|Hin].
    + simpl in Hin. rewrite lookup_empty in Hin. destruct Hin; discriminate.
    + apply (wrapped_app_r _ _ _ _ _ Hall Hbound Hin).
Qed.

Lemma pathID_idRequest id body :
  pathID (idRequest id body) = Strconv.Atoi id.
Proof.
  unfold pathID, idRequest. simpl. rewrite lookup_singleton_eq. reflexivity.
Qed.

(** One round of [churn] on an empty store: both requests succeed, the
    store is empty again and the counter has advanced. *)
Lemma churn_round c :
  GoInt.in_range c →
  let st := {| students := ∅; nextID := c |} in
  let st1 := snd (ServeHTTP POST_students (bodyRequest ann) st) in
  let del := idRequest (Strconv.FormatInt c) None in
  fst (ServeHTTP POST_students (bodyRequest ann) st) =
    {| StatusCode := StatusCreated;
       Payload := [Json (json_of_Student (setID ann c))] |}
  ∧ fst (ServeHTTP DELETE_student del st1) =
      {| StatusCode := StatusNoContent; Payload := [] |}
  ∧ snd (ServeHTTP DELETE_student del st1) =
      {| students := ∅; nextID := GoInt.incr c |}.
Proof.
  intros Hc st st1 del.
  assert (Hcreate : ServeHTTP POST_students (bodyRequest ann) st =
    ({| StatusCode := StatusCreated;
        Payload := [Json (json_of_Student (setID ann c))] |},
     {| students := <[c := setID ann c]> ∅; nextID := GoInt.incr c |}))
    by (apply Create_accepts; reflexivity).
  assert (Hid : pathID del = Some c)
    by (unfold del; rewrite pathID_idRequest; apply Atoi_FormatInt, Hc).
  assert (Hin : students st1 !! c = Some (setID ann c))
    by (unfold st1; rewrite Hcreate; simpl; apply lookup_insert_eq).
  rewrite (Delete_accepts del c _ st1 Hid Hin).
  unfold st1. rewrite Hcreate. simpl.
  split_and!; try reflexivity.
  rewrite delete_insert_eq, delete_empty. reflexivity.
Qed.

Lemma churn_run c n :
  GoInt.in_range c →
  let st := {| students := ∅; nextID := c |} in
  after (churn c n) st =
    {| students := ∅; nextID := GoInt.wrap (c + Z.of_nat n) |}
  ∧ length (createdIDs (replies (churn c n) st)) = n
  ∧ Forall succeeded (replies (churn c n) st).
Proof.
  revert c. induction n as [|n IH]; intros c Hc st.
  - simpl. split_and!; [|reflexivity|constructor].
    unfold after, st. simpl. rewrite Z.add_0_r, (wrap_in_range _ Hc).
    reflexivity.
  - destruct (churn_round c Hc) as (Hpost & Hdel & Hst).
    destruct (IH (GoInt.incr c) (wrap_range _)) as (Hafter & Hlen & Hall).
    subst st. cbn [churn]. rewrite !after_cons, !replies_cons.
    rewrite Hst, Hpost, Hdel.
    rewrite Hafter, !createdIDs_cons.
    change (created_id _) with (Some c) at 1.
    change (created_id _) with (@None Z) at 1.
    cbn [length]. rewrite Hlen.
    split_and!.
    + unfold GoInt.incr. rewrite wrap_add_l. do 2 f_equal. lia.
    + reflexivity.
    + constructor; [right; left; reflexivity|].
      constructor; [right; right; reflexivity|exact Hall].
Qed.

(** The k-th id of [churn]: the counter advanced k times. *)
Lemma churn_nth c n k :
  GoInt.in_range c → (k < n)%nat →
  createdIDs (replies (churn c n) {| students := ∅; nextID := c |}) !! k =
    Some (GoInt.wrap (c + Z.of_nat k)).
Proof.
  intros Hc Hk.
  destruct (run_ids (churn c n) {| students := ∅; nextID := c |} Hc)
    as [Hids _].
  destruct (churn_run c n Hc) as (_ & Hlen & _).
  rewrite Hlen in Hids.
  rewrite Hids, list_lookup_fmap, lookup_seq_lt by exact Hk.
  reflexivity.
Qed.

(** C2 as stated, without a bound, fails where the counter wraps around.
    A client creates Ann and deletes her again, over and over, on the new
    store; every request succeeds.  The 2^63-th Create is given -2^63,
    right after the id 2^63 - 1.  And the id 1, created and deleted in the
    first round, is handed out again by the 2^64-th Create after it. *)
Lemma Create_ids_wrap_around :
  let ids :=
    createdIDs (replies (churn 1 (Z.to_nat (2 ^ 63))) NewStudentStore) in
  let first := churn 1 1 in
  let later := churn 2 (Z.to_nat (2 ^ 64)) in
  (Forall succeeded (replies (churn 1 (Z.to_nat (2 ^ 63))) NewStudentStore)
   ∧ ids !! Z.to_nat (2 ^ 63 - 2) = Some (2 ^ 63 - 1)
   ∧ ids !! Z.to_nat (2 ^ 63 - 1) = Some (- 2 ^ 63))
  ∧ (first = [(POST_students, bodyRequest ann);
              (DELETE_student, idRequest "1" None)]
     ∧ replies first NewStudentStore =
         [{| StatusCode := StatusCreated;
             Payload := [Json (json_of_Student (setID ann 1))] |};
          {| StatusCode := StatusNoContent; Payload := [] |}]
     ∧ Forall succeeded (replies later (after first NewStudentStore))
     ∧ createdIDs (replies later (after first NewStudentStore))
         !! Z.to_nat (2 ^ 64 - 1) = Some 1).
Proof.
  intros ids first later.
  assert (H1 : GoInt.in_range 1) by (split; discriminate).
  assert (H2 : GoInt.in_range 2) by (split; discriminate).
  assert (Hfirst : after first NewStudentStore =
                     {| students := ∅; nextID := 2 |})
    by (apply (churn_run 1 1 H1)).
  split; split_and!.
  - apply (churn_run 1 _ H1).
  - unfold ids, NewStudentStore. rewrite (churn_nth 1 _ _ H1) by lia.
    rewrite Z2Nat.id by lia. reflexivity.
  - unfold ids, NewStudentStore. rewrite (churn_nth 1 _ _ H1) by lia.
    rewrite Z2Nat.id by lia. reflexivity.
  - reflexivity.
  - vm_compute. reflexivity.
  - rewrite Hfirst. apply (churn_run 2 _ H2).
  - rewrite Hfirst. unfold later. rewrite (churn_nth 2 _ _ H2) by lia.
    rewrite Z2Nat.id by lia. reflexivity.
Qed.

(** ** The theorems at concrete requests *)

Lemma ann_valid : valid ann.
Proof. repeat split; discriminate. Defined.

Lemma studentX_valid : valid studentX.
Proof. repeat split; discriminate. Defined.

Lemma annStore_reachable : reachable annStore.
Proof.
  exact (reachable_serve POST_students (bodyRequest ann) NewStudentStore
           reachable_new).
Defined.

Lemma Create_ids_fresh_store_witness :
  created_id (fst (ServeHTTP POST_students (bodyRequest ann) annStore)) =
    Some 2
  ∧ createdIDs
      (replies [(POST_students, bodyRequest ann);
                (POST_students, bodyRequest studentX)] NewStudentStore) =
      [1; 2]
  ∧ 1 ∉ createdIDs
          (replies [(POST_students, bodyRequest studentX)]
             (snd (ServeHTTP DELETE_student (idRequest "1" None) annStore))).
Proof.
  destruct Create_ids_fresh_store as (Hnext & Hids & Hgone).
  split_and!.
  - apply (Hnext annStore (bodyRequest ann) ann); [reflexivity|].
    exact ann_valid.
  - apply (Hids [(POST_students, bodyRequest ann);
                 (POST_students, bodyRequest studentX)]).
    vm_compute. discriminate.
  - apply (Hgone [(POST_students, bodyRequest ann)] (idRequest "1" None)
             [(POST_students, bodyRequest studentX)] 1).
    + reflexivity.
    + reflexivity.
    + vm_compute. discriminate.
Defined.

Lemma Update_replaces_record_witness :
  let st' :=
    snd (ServeHTTP PUT_student (idRequest "1" (Some studentX)) annStore) in
  ServeHTTP GET_student (idRequest "1" None) st' =
    ({| StatusCode := StatusOK;
        Payload := [Json (json_of_Student
          {| ID := 1; Name := "X"; Age := 5; Email := "x@x" |})] |}, st').
Proof.
  apply (Update_replaces_record annStore (idRequest "1" (Some studentX))
           (idRequest "1" None) 1 studentX (setID ann 1)).
  - reflexivity.
  - reflexivity.
  - exact studentX_valid.
  - reflexivity.
  - reflexivity.
Defined.

Lemma missing_id_not_found_witness :
  ServeHTTP GET_student (idRequest "5" None) annStore =
    ({| StatusCode := StatusNotFound;
        Payload := [Text "Student not found"] |}, annStore)
  ∧ fst (ServeHTTP GET_student (idRequest "1" None)
           (snd (ServeHTTP DELETE_student (idRequest "1" None) annStore))) =
      {| StatusCode := StatusNotFound;
         Payload := [Text "Student not found"] |}.
Proof.
  destruct (missing_id_not_found 5) as (Hget & _).
  destruct (missing_id_not_found 1) as (_ & _ & _ & _ & Hdel).
  split.
  - apply Hget; reflexivity.
  - apply Hdel; reflexivity.
Defined.

Lemma failure_leaves_store_witness :
  StatusCode (fst (ServeHTTP PUT_student
                     (idRequest "1" (Some (setID ann 0) )) NewStudentStore)) =
    StatusNotFound
  ∧ snd (ServeHTTP PUT_student (idRequest "1" (Some (setID ann 0)))
           NewStudentStore) = NewStudentStore.
Proof.
  split; [reflexivity|].
  apply (failure_leaves_store PUT_student
           (idRequest "1" (Some (setID ann 0))) NewStudentStore).
  right. reflexivity.
Defined.

Lemma stored_students_valid_witness :
  students annStore !! 1 = Some (setID ann 1)
  ∧ Validate (setID ann 1) = [].
Proof.
  split; [reflexivity|].
  apply (stored_students_valid annStore 1 (setID ann 1)).
  - exact annStore_reachable.
  - reflexivity.
Defined.

Lemma stored_key_is_ID_witness :
  students annStore !! 1 = Some (setID ann 1) ∧ ID (setID ann 1) = 1.
Proof.
  split; [reflexivity|].
  apply (stored_key_is_ID annStore 1 (setID ann 1)).
  - exact annStore_reachable.
  - reflexivity.
Defined.

Lemma summary_of_stored_student_witness :
  fst (ServeHTTP GET_student_summary (idRequest "1" None) annStore) =
    {| StatusCode := StatusOK;
       Payload :=
         [Json (JObject
            [("summary"%string,
              JString "Student Ann is 20 years old with email a@b.com.")])] |}.
Proof.
  destruct (summary_of_stored_student annStore (idRequest "1" None) 1
              (setID ann 1)) as [Hsum _].
  - reflexivity.
  - reflexivity.
  - rewrite Hsum. reflexivity.
Defined.

Lemma handlers_frame_witness :
  let two :=
    after [(POST_students, bodyRequest ann);
           (POST_students, bodyRequest studentX)] NewStudentStore in
  students (snd (ServeHTTP PUT_student (idRequest "1" (Some studentX)) two))
    !! 2 = students two !! 2
  ∧ nextID (snd (ServeHTTP PUT_student (idRequest "1" (Some studentX)) two))
    = nextID two
  ∧ students (snd (ServeHTTP DELETE_student (idRequest "1" None) two)) !! 2
    = students two !! 2.
Proof.
  intros two.
  destruct handlers_frame as (Hupd & Hdel & _).
  destruct (Hupd two (idRequest "1" (Some studentX)) 1 2) as [Hmap Hnext];
    [reflexivity|reflexivity|].
  split_and!.
  - apply Hmap. discriminate.
  - exact Hnext.
  - apply (Hdel two (idRequest "1" None) 1 2);
      [reflexivity|reflexivity|discriminate].
Defined.

Lemma GenerateStudentSummary_relays_witness :
  Ollama.relays Ollama.promptOf
    {| Ollama.baseURL := "http://localhost:11434" |} (setID ann 1).
Proof.
  destruct (GenerateStudentSummary_relays
              {| Ollama.baseURL := "http://localhost:11434" |} (setID ann 1))
    as [_ Hexact].
  apply Hexact; reflexivity.
Defined.

(** * Further properties of the handlers *)

(** ** Path ids *)

Lemma Atoi_in_range s z : Strconv.Atoi s = Some z → GoInt.in_range z.
Proof.
  unfold Strconv.Atoi. destruct s as [|c rest]; [discriminate|].
  cbv zeta.
  destruct (if Ascii.eqb c "-" || Ascii.eqb c "+" then rest else String c rest);
    [discriminate|].
  destruct (Strconv.digits 0 _) as [n|]; [|discriminate].
  destruct (_ && _) eqn:Hr; [|discriminate].
  intros [= <-]. apply andb_prop in Hr as [Hlo Hhi].
  split; apply Z.leb_le; assumption.
Qed.

Lemma in_range_test_false z :
  ¬ GoInt.in_range z →
  (GoInt.min_int <=? z) && (z <=? GoInt.max_int) = false.
Proof.
  intros Hz. apply not_true_iff_false. intros Ht. apply Hz.
  apply andb_prop in Ht as [Hlo Hhi]. split; apply Z.leb_le; assumption.
Qed.

(** A numeral outside the range of [int] is a range error. *)
Lemma Atoi_FormatInt_overflow z :
  ¬ GoInt.in_range z → Strconv.Atoi (Strconv.FormatInt z) = None.
Proof.
  intros Hz. unfold Strconv.FormatInt.
  destruct z as [|p|p]; simpl.
  - exfalso. apply Hz. split; discriminate.
  - pose proof (DecimalPos.Unsigned.to_uint_nonnil p) as Hnil.
    pose proof (digits_to_uint p) as Hd.
    destruct (string_of_uint_head _ Hnil) as (c & rest & Hs & Hm & Hp).
    unfold NilZero.string_of_uint.
    destruct (Pos.to_uint p) eqn:Hu; try congruence;
      rewrite Hs in *; unfold Strconv.Atoi; rewrite Hm, Hp; simpl orb;
      cbv iota; rewrite Hd, (in_range_test_false _ Hz); reflexivity.
  - pose proof (DecimalPos.Unsigned.to_uint_nonnil p) as Hnil.
    pose proof (digits_to_uint p) as Hd.
    destruct (string_of_uint_head _ Hnil) as (c & rest & Hs & _ & _).
    unfold NilZero.string_of_uint.
    destruct (Pos.to_uint p) eqn:Hu; try congruence;
      rewrite Hs in *; rewrite Hd; cbv iota;
      change (- Z.pos p) with (Z.neg p);
      rewrite (in_range_test_false _ Hz); reflexivity.
Qed.

Lemma digit_not_sign c d :
  Strconv.digit c = Some d →
  Ascii.eqb c "-" = false ∧ Ascii.eqb c "+" = false.
Proof.
  intros Hd. split; apply Ascii.eqb_neq; intros ->; discriminate Hd.
Qed.

Lemma leadingDigit_inv s :
  leadingDigit s = true →
  ∃ c rest d, s = String c rest ∧ Strconv.digit c = Some d.
Proof.
  destruct s as [|c rest]; [discriminate|]. simpl.
  destruct (Strconv.digit c) as [d|] eqn:Hd; [eauto|discriminate].
Qed.

(** A plus sign or a zero in front of a numeral does not change what
    [Atoi] reads. *)
Lemma Atoi_plus s :
  leadingDigit s = true → Strconv.Atoi (String "+" s) = Strconv.Atoi s.
Proof.
  intros (c & rest & d & -> & Hd)%leadingDigit_inv.
  destruct (digit_not_sign c d Hd) as [Hm Hp].
  unfold Strconv.Atoi. rewrite Hm, Hp. reflexivity.
Qed.

Lemma Atoi_zero s :
  leadingDigit s = true → Strconv.Atoi (String "0" s) = Strconv.Atoi s.
Proof.
  intros (c & rest & d & -> & Hd)%leadingDigit_inv.
  destruct (digit_not_sign c d Hd) as [Hm Hp].
  unfold Strconv.Atoi. rewrite Hm, Hp. reflexivity.
Qed.

(** A handler reads a request through the parsed id and the decoded body
    only. *)
Lemma ServeHTTP_ext rt r r' st :
  pathID r = pathID r' → Body r = Body r' →
  ServeHTTP rt r st = ServeHTTP rt r' st.
Proof.
  intros Hid Hb.
  destruct rt;
    unfold ServeHTTP, route, CreateStudent, GetAllStudents, GetStudent,
      UpdateStudent, DeleteStudent, GetStudentSummary;
    rewrite ?Hid, ?Hb; reflexivity.
Qed.

Lemma invalid_test s :
  ¬ valid s → (0 <? length (Validate s))%nat = true.
Proof.
  intros Hs. apply not_false_iff_true. intros Hf. apply Hs.
  apply Validate_nil_iff, Validate_pass, Hf.
Qed.

Lemma bad_id_rejected rt r st :
  reads_id rt = true → pathID r = None →
  ServeHTTP rt r st = (invalidID, st).
Proof.
  intros Hrt Hid. destruct rt; try discriminate Hrt; run_handler; reflexivity.
Qed.

Lemma Update_bad_body r id st :
  pathID r = Some id → Body r = None →
  ServeHTTP PUT_student r st = (invalidBody, st).
Proof. intros Hid Hb. run_handler. reflexivity. Qed.

Lemma Update_invalid r id s st :
  pathID r = Some id → Body r = Some s → ¬ valid s →
  ServeHTTP PUT_student r st = (validationFailed (Validate s), st).
Proof.
  intros Hid Hb Hv. apply invalid_test in Hv. run_handler. reflexivity.
Qed.

Lemma Create_bad_body r st :
  Body r = None → ServeHTTP POST_students r st = (invalidBody, st).
Proof. intros Hb. run_handler. reflexivity. Qed.

Lemma Create_invalid r s st :
  Body r = Some s → ¬ valid s →
  ServeHTTP POST_students r st = (validationFailed (Validate s), st).
Proof.
  intros Hb Hv. apply invalid_test in Hv. run_handler. reflexivity.
Qed.

Lemma Summary_missing r id st :
  pathID r = Some id → students st !! id = None →
  ServeHTTP GET_student_summary r st = (notFound, st).
Proof. intros Hid Hs. run_handler. reflexivity. Qed.

(** X1: GET /students answers 200 with one JSON array, the encodings of a
    list of students that has as many entries as the map and holds a
    student exactly when the map holds it under some key; the store is left
    alone, and on the new store the array is empty. *)
Theorem GetAll_lists_store (st : StudentStore) (r : Request) :
  (∃ listed : list Student,
     ServeHTTP GET_students r st =
       ({| StatusCode := StatusOK;
           Payload := [Json (JArray (json_of_Student <$> listed))] |}, st)
     ∧ length listed = size (students st)
     ∧ ∀ s, s ∈ listed ↔ ∃ i, students st !! i = Some s)
  ∧ ServeHTTP GET_students r NewStudentStore =
      ({| StatusCode := StatusOK; Payload := [Json (JArray [])] |},
       NewStudentStore).
Proof.
  split.
  - exists (snd <$> map_to_list (students st)). split_and!.
    + apply GetAll_reads.
    + rewrite length_fmap. apply length_map_to_list.
    + intros s. rewrite list_elem_of_fmap. split.
      * intros ([i s'] & -> & Hin). exists i.
        apply elem_of_map_to_list in Hin. exact Hin.
      * intros [i Hi]. exists (i, s). split; [reflexivity|].
        apply elem_of_map_to_list. exact Hi.
  - rewrite GetAll_reads. simpl. rewrite map_to_list_empty. reflexivity.
Qed.

(** X2: a Create whose body does not decode answers 400 with the text
    Invalid request body; a Create whose body decodes to a student that
    breaks a rule answers 400 with the JSON array of the errors of
    [Validate], at least one.  Either way the map and the counter are as
    before: a rejected Create uses up no id. *)
Theorem Create_rejects (st : StudentStore) (r : Request) :
  (Body r = None → ServeHTTP POST_students r st = (invalidBody, st))
  ∧ (∀ s, Body r = Some s → ¬ valid s →
       ServeHTTP POST_students r st = (validationFailed (Validate s), st)
       ∧ Validate s ≠ []).
Proof.
  split.
  - apply Create_bad_body.
  - intros s Hb Hv. split; [apply (Create_invalid r s st Hb Hv)|].
    intros Hnil. apply Hv, Validate_nil_iff, Hnil.
Qed.

(** X3: the order of the checks of Update.  A path id that does not parse
    is reported first, whatever the body; then a body that does not decode;
    then a body that breaks a rule; each before the store is looked at, so
    these replies are the same whether or not the id is stored, and 404 is
    the reply to an absent id only when the body is valid. *)
Theorem Update_checks_in_order (st : StudentStore) (r : Request) :
  (pathID r = None → ServeHTTP PUT_student r st = (invalidID, st))
  ∧ (∀ i, pathID r = Some i → Body r = None →
       ServeHTTP PUT_student r st = (invalidBody, st))
  ∧ (∀ i s, pathID r = Some i → Body r = Some s → ¬ valid s →
       ServeHTTP PUT_student r st = (validationFailed (Validate s), st))
  ∧ (∀ i, pathID r = Some i → students st !! i = None →
       fst (ServeHTTP PUT_student r st) = notFound →
       ∃ s, Body r = Some s ∧ valid s).
Proof.
  split_and!.
  - apply bad_id_rejected. reflexivity.
  - intros i. apply Update_bad_body.
  - intros i s. apply Update_invalid.
  - intros i Hid Hs Hnf.
    destruct (Body r) as [s|] eqn:Hb.
    + exists s. split; [reflexivity|].
      destruct (decide (valid s)) as [Hv|Hv]; [exact Hv|].
      rewrite (Update_invalid r i s st Hid Hb Hv) in Hnf. discriminate Hnf.
    + rewrite (Update_bad_body r i st Hid Hb) in Hnf. discriminate Hnf.
Qed.

(** X4: the four handlers that take a path id answer 400 with the text
    Invalid ID, and leave the store alone, when the id does not parse as an
    [int]; that is the case when the route variable is missing and when
    the path is the numeral of an integer beyond the range of [int].  An id
    that parses is within the range of [int]. *)
Theorem unparsable_id_rejected :
  (∀ rt r st, reads_id rt = true → pathID r = None →
     ServeHTTP rt r st = (invalidID, st))
  ∧ (∀ r, Vars r !! "id"%string = None → pathID r = None)
  ∧ (∀ z body, ¬ GoInt.in_range z →
       pathID (idRequest (Strconv.FormatInt z) body) = None)
  ∧ (∀ r z, pathID r = Some z → GoInt.in_range z).
Proof.
  split_and!.
  - apply bad_id_rejected.
  - intros r Hr. unfold pathID. rewrite Hr. reflexivity.
  - intros z body Hz. rewrite pathID_idRequest.
    apply Atoi_FormatInt_overflow, Hz.
  - intros r z. apply Atoi_in_range.
Qed.

(** X5: a path id is read by [strconv.Atoi], so a plus sign or a zero in
    front of a numeral that begins with a digit addresses the same student:
    every handler gives the same reply and the same store as for the
    numeral itself. *)
Theorem signed_and_padded_ids (rt : Route) (s : string)
    (body : option Student) (st : StudentStore) :
  leadingDigit s = true →
  ServeHTTP rt (idRequest (String "+" s) body) st =
    ServeHTTP rt (idRequest s body) st
  ∧ ServeHTTP rt (idRequest (String "0" s) body) st =
      ServeHTTP rt (idRequest s body) st.
Proof.
  intros Hs. split; apply ServeHTTP_ext; try reflexivity;
    rewrite !pathID_idRequest; [apply Atoi_plus|apply Atoi_zero]; exact Hs.
Qed.

(** ** Reachable stores *)

Lemma effect_ints_in_range st rt r resp st' :
  effect st rt r resp st' → ints_in_range st → ints_in_range st'.
Proof.
  unfold ints_in_range.
  destruct 1 as [r s Hb Hv|r id s old Hid Hb Hv Hold|r id old Hid Hold| |];
    intros [Hn Hk]; simpl; try (split; assumption).
  - split; [apply wrap_range|]. intros i.
    rewrite lookup_insert. case_decide; [subst i; auto|apply Hk].
  - split; [exact Hn|]. intros i.
    rewrite lookup_insert. case_decide; [|apply Hk].
    subst i. intros _. apply Hk. rewrite Hold. eauto.
  - split; [exact Hn|]. intros i.
    rewrite lookup_delete. case_decide; [intros [? [=]]|apply Hk].
Qed.

Lemma reachable_ints_in_range st : reachable st → ints_in_range st.
Proof.
  induction 1 as [|rt r st Hst IH].
  - split; [apply new_store_in_range|].
    intros i. simpl. rewrite lookup_empty. intros [? [=]].
  - eapply effect_ints_in_range; [apply ServeHTTP_effect|exact IH].
Qed.

(** X6: every student of a reachable store can be addressed: its key is
    within the range of [int], and with the decimal numeral of the key as
    path id Get answers 200 with the student, Summary answers 200 with its
    sentence, and Delete answers 204. *)
Theorem stored_student_addressable (st : StudentStore) (i : Z) (s : Student) :
  reachable st → students st !! i = Some s →
  let r := idRequest (Strconv.FormatInt i) None in
  GoInt.in_range i
  ∧ ServeHTTP GET_student r st =
      ({| StatusCode := StatusOK; Payload := [Json (json_of_Student s)] |},
       st)
  ∧ ServeHTTP GET_student_summary r st =
      ({| StatusCode := StatusOK;
          Payload := [Json (JObject [("summary"%string,
                                      JString (summaryLine s))])] |}, st)
  ∧ fst (ServeHTTP DELETE_student r st) =
      {| StatusCode := StatusNoContent; Payload := [] |}.
Proof.
  intros Hst Hs r.
  assert (Hi : GoInt.in_range i).
  { apply (reachable_ints_in_range st Hst). rewrite Hs. eauto. }
  assert (Hid : pathID r = Some i).
  { unfold r. rewrite pathID_idRequest. apply Atoi_FormatInt, Hi. }
  split_and!.
  - exact Hi.
  - apply (Get_found r i s st Hid Hs).
  - apply (Summary_found r i s st Hid Hs).
  - rewrite (Delete_accepts r i s st Hid Hs). reflexivity.
Qed.

(** X7: Create and Get round trip.  On a reachable store, after a Create
    with a valid body, a Get with the numeral of the id just handed out
    answers 200 with the very document of the 201 reply, and the array of
    GET /students holds that document. *)
Theorem Create_then_Get (st : StudentStore) (r g : Request) (s : Student) :
  reachable st → Body r = Some s → valid s →
  let created := fst (ServeHTTP POST_students r st) in
  let st' := snd (ServeHTTP POST_students r st) in
  created_id created = Some (nextID st)
  ∧ ServeHTTP GET_student (idRequest (Strconv.FormatInt (nextID st)) None) st'
    = ({| StatusCode := StatusOK; Payload := Payload created |}, st')
  ∧ ∃ items,
      fst (ServeHTTP GET_students g st') =
        {| StatusCode := StatusOK; Payload := [Json (JArray items)] |}
      ∧ Payload created = [Json (json_of_Student (setID s (nextID st)))]
      ∧ json_of_Student (setID s (nextID st)) ∈ items.
Proof.
  intros Hst Hb Hv created st'. apply Validate_nil_iff in Hv.
  subst created st'. rewrite (Create_accepts r s st Hb Hv).
  cbn [fst snd Payload].
  set (st' := {| students := _; nextID := _ |}).
  assert (Hin : students st' !! nextID st = Some (setID s (nextID st)))
    by apply lookup_insert_eq.
  split_and!.
  - reflexivity.
  - apply (Get_found _ (nextID st)); [|exact Hin].
    rewrite pathID_idRequest. apply Atoi_FormatInt.
    destruct (reachable_ints_in_range st Hst) as [Hn _]. exact Hn.
  - eexists. rewrite GetAll_reads. simpl. split_and!; try reflexivity.
    apply list_elem_of_fmap_2, list_elem_of_fmap.
    exists (nextID st, setID s (nextID st)). split; [reflexivity|].
    apply elem_of_map_to_list. exact Hin.
Qed.

(** ** Repeating a request *)

(** X8: Update is idempotent: serving the same PUT a second time gives the
    same reply and the same store as serving it once. *)
Theorem Update_idempotent (st : StudentStore) (r : Request) :
  ServeHTTP PUT_student r (snd (ServeHTTP PUT_student r st)) =
    ServeHTTP PUT_student r st.
Proof.
  destruct (pathID r) as [id|] eqn:Hid.
  2: { rewrite (bad_id_rejected PUT_student r st eq_refl Hid). simpl.
       apply bad_id_rejected; [reflexivity|exact Hid]. }
  destruct (Body r) as [s|] eqn:Hb.
  2: { rewrite (Update_bad_body r id st Hid Hb). simpl.
       apply (Update_bad_body r id st Hid Hb). }
  destruct (decide (valid s)) as [Hv|Hv].
  2: { rewrite (Update_invalid r id s st Hid Hb Hv). simpl.
       apply (Update_invalid r id s st Hid Hb Hv). }
  apply Validate_nil_iff in Hv.
  destruct (students st !! id) as [old|] eqn:Hs.
  - rewrite (Update_accepts r id s old st Hid Hb Hv Hs). simpl.
    rewrite (Update_accepts r id s (setID s id) _ Hid Hb Hv)
      by apply lookup_insert_eq.
    simpl. rewrite insert_insert_eq. reflexivity.
  - rewrite (Update_missing r id s st Hid Hb Hv Hs). simpl.
    apply (Update_missing r id s st Hid Hb Hv Hs).
Qed.

(** X9: a Delete served a second time finds nothing to remove: it answers
    404 (400 when the id does not parse) and leaves the store as the first
    Delete left it. *)
Theorem Delete_twice (st : StudentStore) (r : Request) :
  let st1 := snd (ServeHTTP DELETE_student r st) in
  ServeHTTP DELETE_student r st1 =
    (match pathID r with Some _ => notFound | None => invalidID end, st1).
Proof.
  intros st1. destruct (pathID r) as [id|] eqn:Hid.
  - apply (Delete_missing r id st1 Hid). subst st1.
    destruct (students st !! id) as [old|] eqn:Hs.
    + rewrite (Delete_accepts r id old st Hid Hs). simpl.
      apply lookup_delete_eq.
    + rewrite (Delete_missing r id st Hid Hs). exact Hs.
  - apply bad_id_rejected; [reflexivity|exact Hid].
Qed.

(** ** The counter *)

(** X10: only a Create answered 201 moves the counter, by one step of
    [nextID++]; every other reply, of any handler, comes with the counter
    it found, and 201 is a reply of Create alone. *)
Theorem counter_moves_on_create (rt : Route) (r : Request)
    (st : StudentStore) :
  let resp := fst (ServeHTTP rt r st) in
  let st' := snd (ServeHTTP rt r st) in
  (StatusCode resp = StatusCreated →
   rt = POST_students ∧ nextID st' = GoInt.incr (nextID st))
  ∧ (StatusCode resp ≠ StatusCreated → nextID st' = nextID st).
Proof.
  intros resp st'. subst resp st'.
  destruct (ServeHTTP_effect rt r st)
    as [r s Hb Hv|r id s old Hid Hb Hv Hold|r id old Hid Hold
        |rt r body Hrt|rt r code body [-> | ->]];
    simpl; split; intros Hcode; try discriminate Hcode; try reflexivity.
  - split; reflexivity.
  - contradiction Hcode. reflexivity.
Qed.

(** ** Runs within the range of the counter *)

Lemma firstIDs_elem n i : i ∈ firstIDs n → 1 ≤ i ≤ Z.of_nat n.
Proof.
  intros [k Hk]%list_elem_of_lookup.
  pose proof (lookup_lt_Some _ _ _ Hk) as Hlt.
  unfold firstIDs in Hlt. rewrite length_fmap, length_seq in Hlt.
  apply firstIDs_lookup in Hk. lia.
Qed.

(** While fewer than [max_int] ids have been handed out, the counter is one
    more than their number and every key of the store is one of them. *)
Lemma bounded_run_state reqs :
  let st := after reqs NewStudentStore in
  let n := length (createdIDs (replies reqs NewStudentStore)) in
  Z.of_nat n < GoInt.max_int →
  nextID st = Z.of_nat n + 1
  ∧ ∀ i, is_Some (students st !! i) → 1 ≤ i ≤ Z.of_nat n.
Proof.
  intros st n Hn. split.
  - destruct (run_ids reqs _ new_store_in_range) as [_ Hnext].
    fold st n in Hnext. rewrite Hnext. simpl nextID.
    rewrite wrap_in_range; [lia|].
    unfold GoInt.in_range, GoInt.min_int in *. simpl. lia.
  - intros i Hi. apply run_keys in Hi as [Hi|Hi].
    + simpl in Hi. rewrite lookup_empty in Hi. destruct Hi; discriminate.
    + rewrite run_ids_new in Hi by (fold n; lia). apply firstIDs_elem, Hi.
Qed.

(** X11: in a run on the new store that has handed out fewer than
    [max_int] ids, the counter is one more than the number of ids handed
    out, every key of the store lies between 1 and that number, nothing is
    stored under the counter, and so a further Create, accepted or not,
    leaves every stored student as it is. *)
Theorem Create_keeps_students (reqs : list (Route * Request)) (r : Request) :
  let st := after reqs NewStudentStore in
  let n := length (createdIDs (replies reqs NewStudentStore)) in
  Z.of_nat n < GoInt.max_int →
  nextID st = Z.of_nat n + 1
  ∧ (∀ i, is_Some (students st !! i) → 1 ≤ i ≤ Z.of_nat n)
  ∧ students st !! nextID st = None
  ∧ (∀ j, is_Some (students st !! j) →
       students (snd (ServeHTTP POST_students r st)) !! j = students st !! j).
Proof.
  intros st n Hn.
  destruct (bounded_run_state reqs Hn) as [Hnext Hkeys].
  fold st n in Hnext, Hkeys.
  split_and!; [exact Hnext|exact Hkeys| |].
  - destruct (students st !! nextID st) eqn:Hs; [|reflexivity].
    assert (Hin : is_Some (students st !! nextID st)) by (rewrite Hs; eauto).
    apply Hkeys in Hin. lia.
  - intros j Hj. apply Hkeys in Hj.
    destruct (Body r) as [s|] eqn:Hb;
      [destruct (decide (valid s)) as [Hv|Hv]|].
    + apply Validate_nil_iff in Hv. rewrite (Create_accepts r s st Hb Hv).
      simpl. apply lookup_insert_ne. lia.
    + rewrite (Create_invalid r s st Hb Hv). reflexivity.
    + rewrite (Create_bad_body r st Hb). reflexivity.
Qed.

Lemma countStatus_snoc code resps resp :
  countStatus code (resps ++ [resp]) =
    (countStatus code resps +
     if decide (StatusCode resp = code) then 1 else 0)%nat.
Proof.
  unfold countStatus. rewrite filter_app, length_app. f_equal.
  rewrite filter_cons, filter_nil. case_decide; reflexivity.
Qed.

Lemma map_size_delete_present (m : gmap Z Student) i :
  is_Some (m !! i) → S (size (delete i m)) = size m.
Proof.
  intros Hi. rewrite (map_size_delete_Some _ _ Hi).
  destruct (size m) eqn:Hsize; [|reflexivity].
  apply map_size_empty_inv in Hsize. subst m.
  rewrite lookup_empty in Hi. destruct Hi; discriminate.
Qed.

(** X12: in a run on the new store that has handed out no more than
    [max_int] ids, the number of students in the store is the number of 201
    replies minus the number of 204 replies: each accepted Create adds one
    student, each accepted Delete removes one, and nothing else changes
    their number. *)
Theorem students_counted (reqs : list (Route * Request)) :
  let resps := replies reqs NewStudentStore in
  Z.of_nat (length (createdIDs resps)) ≤ GoInt.max_int →
  (size (students (after reqs NewStudentStore))
   + countStatus StatusNoContent resps)%nat
  = countStatus StatusCreated resps.
Proof.
  induction reqs as [|[rt r] reqs IH] using rev_ind; intros resps Hn.
  - reflexivity.
  - subst resps. rewrite replies_app, after_app, replies_cons, after_cons in *.
    change (replies [] _) with (@nil Response) in *.
    change (after [] ?st) with st.
    rewrite createdIDs_app, length_app in Hn.
    rewrite !countStatus_snoc.
    set (st := after reqs NewStudentStore) in *.
    set (resps := replies reqs NewStudentStore) in *.
    specialize (IH ltac:(lia)). cbv zeta in IH.
    pose proof (bounded_run_state reqs) as Hstate.
    cbv zeta in Hstate. fold st resps in Hstate.
    destruct (ServeHTTP_effect rt r st)
      as [r s Hb Hv|r id s old Hid Hb Hv Hold|r id old Hid Hold
          |rt r body Hrt|rt r code body [-> | ->]]; simpl in *.
    + change (createdIDs [_]) with [nextID st] in Hn. simpl in Hn.
      destruct (Hstate ltac:(lia)) as [Hnext Hkeys].
      rewrite map_size_insert_None; [lia|].
      destruct (students st !! nextID st) eqn:Hs; [|reflexivity].
      assert (Hin : is_Some (students st !! nextID st))
        by (rewrite Hs; eauto).
      apply Hkeys in Hin. lia.
    + rewrite map_size_insert_Some by (rewrite Hold; eauto). lia.
    + pose proof (map_size_delete_present (students st) id) as Hsize.
      rewrite Hold in Hsize. specialize (Hsize ltac:(eauto)). lia.
    + lia.
    + lia.
    + lia.
Qed.

(** ** The shape of the replies *)

(** X13: what a client can receive.  Every reply of every handler is one
    of: 204 with an empty body; 200 or 201 with exactly one JSON document;
    404 with the text Student not found; 400 with the text Invalid ID or
    Invalid request body, or with a JSON array of validation errors that is
    not empty.  No handler writes a second document or a body after an
    error text. *)
Theorem reply_shapes (rt : Route) (r : Request) (st : StudentStore) :
  let resp := fst (ServeHTTP rt r st) in
  resp = {| StatusCode := StatusNoContent; Payload := [] |}
  ∨ (∃ v, resp = {| StatusCode := StatusOK; Payload := [Json v] |})
  ∨ (∃ v, resp = {| StatusCode := StatusCreated; Payload := [Json v] |})
  ∨ resp = notFound
  ∨ resp = invalidID
  ∨ resp = invalidBody
  ∨ (∃ errors, errors ≠ [] ∧ resp = validationFailed errors).
Proof.
  intros resp. subst resp.
  assert (Hinvalid : ∀ s, ¬ valid s → Validate s ≠ []).
  { intros s Hv Hnil. apply Hv, Validate_nil_iff, Hnil. }
  destruct rt.
  - destruct (Body r) as [s|] eqn:Hb;
      [destruct (decide (valid s)) as [Hv|Hv]|].
    + apply Validate_nil_iff in Hv. rewrite (Create_accepts r s st Hb Hv).
      do 2 right. left. eauto.
    + rewrite (Create_invalid r s st Hb Hv). do 6 right. eauto.
    + rewrite (Create_bad_body r st Hb). do 5 right. left. reflexivity.
  - rewrite GetAll_reads. right. left. eauto.
  - destruct (pathID r) as [id|] eqn:Hid;
      [destruct (students st !! id) as [s|] eqn:Hs|].
    + rewrite (Get_found r id s st Hid Hs). right. left. eauto.
    + rewrite (Get_missing r id st Hid Hs). do 3 right. left. reflexivity.
    + rewrite (bad_id_rejected GET_student r st eq_refl Hid).
      do 4 right. left. reflexivity.
  - destruct (pathID r) as [id|] eqn:Hid;
      [destruct (Body r) as [s|] eqn:Hb;
       [destruct (decide (valid s)) as [Hv|Hv];
        [destruct (students st !! id) as [old|] eqn:Hs|]|]|].
    + apply Validate_nil_iff in Hv.
      rewrite (Update_accepts r id s old st Hid Hb Hv Hs). right. left. eauto.
    + apply Validate_nil_iff in Hv.
      rewrite (Update_missing r id s st Hid Hb Hv Hs).
      do 3 right. left. reflexivity.
    + rewrite (Update_invalid r id s st Hid Hb Hv). do 6 right. eauto.
    + rewrite (Update_bad_body r id st Hid Hb). do 5 right. left. reflexivity.
    + rewrite (bad_id_rejected PUT_student r st eq_refl Hid).
      do 4 right. left. reflexivity.
  - destruct (pathID r) as [id|] eqn:Hid;
      [destruct (students st !! id) as [old|] eqn:Hs|].
    + rewrite (Delete_accepts r id old st Hid Hs). left. reflexivity.
    + rewrite (Delete_missing r id st Hid Hs). do 3 right. left. reflexivity.
    + rewrite (bad_id_rejected DELETE_student r st eq_refl Hid).
      do 4 right. left. reflexivity.
  - destruct (pathID r) as [id|] eqn:Hid;
      [destruct (students st !! id) as [s|] eqn:Hs|].
    + rewrite (Summary_found r id s st Hid Hs). right. left. eauto.
    + rewrite (Summary_missing r id st Hid Hs). do 3 right. left. reflexivity.
    + rewrite (bad_id_rejected GET_student_summary r st eq_refl Hid).
      do 4 right. left. reflexivity.
Qed.

(** ** The summary *)

(** X14: the summary follows the store.  After an accepted Update of [i]
    the summary of [i] is the sentence of the new name, age and email;
    after a Delete of [i] the summary of [i] answers 404, as it does for any
    id the store does not hold; the store is never changed by it. *)
Theorem summary_follows_store (st : StudentStore) (g : Request) (i : Z) :
  pathID g = Some i →
  (∀ r s old,
     pathID r = Some i → Body r = Some s → valid s →
     students st !! i = Some old →
     let st' := snd (ServeHTTP PUT_student r st) in
     ServeHTTP GET_student_summary g st' =
       ({| StatusCode := StatusOK;
           Payload :=
             [Json (JObject
                [("summary"%string,
                  JString ("Student " +:+ Name s +:+ " is " +:+
                           Strconv.FormatInt (Age s) +:+
                           " years old with email " +:+ Email s +:+ "."))])]
        |}, st'))
  ∧ (∀ r, pathID r = Some i →
       let st' := snd (ServeHTTP DELETE_student r st) in
       ServeHTTP GET_student_summary g st' = (notFound, st'))
  ∧ (students st !! i = None →
     ServeHTTP GET_student_summary g st = (notFound, st)).
Proof.
  intros Hg. split_and!.
  - intros r s old Hid Hb Hv Hold st'. apply Validate_nil_iff in Hv.
    subst st'. rewrite (Update_accepts r i s old st Hid Hb Hv Hold).
    cbn [snd].
    apply (Summary_found g i (setID s i)); [exact Hg|].
    apply lookup_insert_eq.
  - intros r Hid st'. apply (Summary_missing g i st' Hg). subst st'.
    destruct (students st !! i) as [old|] eqn:Hs.
    + rewrite (Delete_accepts r i old st Hid Hs). apply lookup_delete_eq.
    + rewrite (Delete_missing r i st Hid Hs). exact Hs.
  - apply (Summary_missing g i st Hg).
Qed.

(** ** The prompt of the Ollama client *)

Lemma string_append_assoc (a b c : string) :
  (a +:+ b) +:+ c = a +:+ (b +:+ c).
Proof.
  induction a as [|ch a IH]; [reflexivity|].
  change (String ch ((a +:+ b) +:+ c) = String ch (a +:+ (b +:+ c))).
  rewrite IH. reflexivity.
Qed.

Lemma string_append_id (a b : string) : a = a +:+ b → b = EmptyString.
Proof.
  induction a as [|ch a IH].
  - intros Heq. symmetry. exact Heq.
  - intros [= Heq]. apply IH, Heq.
Qed.

(** X15: the prompt does not delimit its fields.  A student whose email
    goes on with a line feed and text shaped like the Age and Email lines
    gets the same prompt, and so the same POST, as the student whose name
    takes in the lines up to there: the client sends text from a field as
    if it were the fields that follow. *)
Theorem prompt_fields_run_together (c : Ollama.OllamaClient)
    (id1 id2 : Z) (name email email' : string) (age age' : Z) :
  let tail :=
    Ollama.LF +:+ "Age: " +:+ Strconv.FormatInt age' +:+
    Ollama.LF +:+ "Email: " +:+ email' in
  let middle :=
    Ollama.LF +:+ "Age: " +:+ Strconv.FormatInt age +:+
    Ollama.LF +:+ "Email: " +:+ email in
  let s1 := {| ID := id1; Name := name; Age := age;
               Email := email +:+ tail |} in
  let s2 := {| ID := id2; Name := name +:+ middle; Age := age';
               Email := email' |} in
  Ollama.promptOf s1 = Ollama.promptOf s2
  ∧ Ollama.GenerateStudentSummary c s1 = Ollama.GenerateStudentSummary c s2
  ∧ Name s1 ≠ Name s2.
Proof.
  intros tail middle s1 s2.
  assert (Hp : Ollama.promptOf s1 = Ollama.promptOf s2).
  { unfold Ollama.promptOf, s1, s2, tail, middle. cbn [Name Age Email].
    rewrite !string_append_assoc. reflexivity. }
  split_and!.
  - exact Hp.
  - unfold Ollama.GenerateStudentSummary, Ollama.Marshal.
    cbn [Ollama.Model Ollama.Prompt]. rewrite Hp. reflexivity.
  - unfold s1, s2, middle. cbn [Name]. intros Heq.
    apply string_append_id in Heq. discriminate Heq.
Qed.

(** ** The further properties at concrete requests *)

Lemma blankStudent_invalid : ¬ valid blankStudent.
Proof. intros (Hname & _). apply Hname. reflexivity. Defined.

Lemma Create_rejects_witness :
  ServeHTTP POST_students (bodyRequest blankStudent) annStore =
    (validationFailed [errName; errAge; errEmail], annStore)
  ∧ ServeHTTP POST_students {| Vars := ∅; Body := None |} annStore =
      (invalidBody, annStore).
Proof.
  destruct (Create_rejects annStore (bodyRequest blankStudent))
    as [_ Hinvalid].
  destruct (Create_rejects annStore {| Vars := ∅; Body := None |})
    as [Hbody _].
  split.
  - apply (Hinvalid blankStudent); [reflexivity|exact blankStudent_invalid].
  - apply Hbody. reflexivity.
Defined.

Lemma Update_checks_in_order_witness :
  students annStore !! 9 = None
  ∧ ServeHTTP PUT_student (idRequest "9" (Some blankStudent)) annStore =
      (validationFailed [errName; errAge; errEmail], annStore)
  ∧ ServeHTTP PUT_student (idRequest "9" None) annStore =
      (invalidBody, annStore)
  ∧ ServeHTTP PUT_student (idRequest "nine" None) annStore =
      (invalidID, annStore).
Proof.
  destruct (Update_checks_in_order annStore
              (idRequest "9" (Some blankStudent))) as (_ & _ & Hinvalid & _).
  destruct (Update_checks_in_order annStore (idRequest "9" None))
    as (_ & Hbody & _).
  destruct (Update_checks_in_order annStore (idRequest "nine" None))
    as (Hid & _).
  split_and!.
  - reflexivity.
  - apply (Hinvalid 9 blankStudent);
      [reflexivity|reflexivity|exact blankStudent_invalid].
  - apply (Hbody 9); reflexivity.
  - apply Hid. reflexivity.
Defined.

Lemma unparsable_id_rejected_witness :
  ServeHTTP GET_student (idRequest "abc" None) annStore =
    (invalidID, annStore)
  ∧ ServeHTTP DELETE_student {| Vars := ∅; Body := None |} annStore =
      (invalidID, annStore)
  ∧ pathID (idRequest (Strconv.FormatInt (2 ^ 63)) None) = None
  ∧ GoInt.in_range 1.
Proof.
  destruct unparsable_id_rejected as (Hbad & Hmissing & Hover & Hrange).
  split_and!.
  - apply Hbad; reflexivity.
  - apply Hbad; [reflexivity|]. apply Hmissing. reflexivity.
  - apply Hover. intros [_ Hhi]. apply Hhi. reflexivity.
  - apply (Hrange (idRequest "1" None)). reflexivity.
Defined.

Lemma signed_and_padded_ids_witness :
  ServeHTTP GET_student (idRequest "+1" None) annStore =
    ServeHTTP GET_student (idRequest "1" None) annStore
  ∧ ServeHTTP GET_student (idRequest "01" None) annStore =
      ServeHTTP GET_student (idRequest "1" None) annStore.
Proof.
  apply (signed_and_padded_ids GET_student "1" None annStore). reflexivity.
Defined.

Lemma stored_student_addressable_witness :
  ServeHTTP GET_student (idRequest "1" None) annStore =
    ({| StatusCode := StatusOK;
        Payload := [Json (json_of_Student (setID ann 1))] |}, annStore).
Proof.
  apply (stored_student_addressable annStore 1 (setID ann 1)).
  - exact annStore_reachable.
  - reflexivity.
Defined.

Lemma Create_then_Get_witness :
  ServeHTTP GET_student (idRequest "2" None)
    (snd (ServeHTTP POST_students (bodyRequest studentX) annStore)) =
    ({| StatusCode := StatusOK;
        Payload := [Json (json_of_Student (setID studentX 2))] |},
     snd (ServeHTTP POST_students (bodyRequest studentX) annStore)).
Proof.
  apply (Create_then_Get annStore (bodyRequest studentX)
           {| Vars := ∅; Body := None |} studentX).
  - exact annStore_reachable.
  - reflexivity.
  - exact studentX_valid.
Defined.

Lemma counter_moves_on_create_witness :
  nextID (snd (ServeHTTP POST_students (bodyRequest ann) NewStudentStore)) = 2
  ∧ nextID (snd (ServeHTTP POST_students (bodyRequest blankStudent)
                   annStore)) = 2.
Proof.
  split.
  - apply (counter_moves_on_create POST_students (bodyRequest ann)
             NewStudentStore). reflexivity.
  - apply (counter_moves_on_create POST_students (bodyRequest blankStudent)
             annStore). discriminate.
Defined.

Lemma Create_keeps_students_witness :
  nextID annStore = 2
  ∧ students (snd (ServeHTTP POST_students (bodyRequest studentX) annStore))
      !! 1 = students annStore !! 1.
Proof.
  destruct (Create_keeps_students [(POST_students, bodyRequest ann)]
              (bodyRequest studentX)) as (Hnext & _ & _ & Hkeep).
  - vm_compute. reflexivity.
  - split; [exact Hnext|]. apply Hkeep. exists (setID ann 1). reflexivity.
Defined.

Lemma students_counted_witness :
  let reqs := [(POST_students, bodyRequest ann);
               (POST_students, bodyRequest studentX);
               (DELETE_student, idRequest "1" None);
               (DELETE_student, idRequest "1" None)] in
  (size (students (after reqs NewStudentStore))
   + countStatus StatusNoContent (replies reqs NewStudentStore))%nat
  = countStatus StatusCreated (replies reqs NewStudentStore).
Proof.
  intros reqs. apply (students_counted reqs). vm_compute. discriminate.
Defined.

Lemma summary_follows_store_witness :
  fst (ServeHTTP GET_student_summary (idRequest "1" None)
         (snd (ServeHTTP PUT_student (idRequest "1" (Some studentX))
                 annStore))) =
    {| StatusCode := StatusOK;
       Payload :=
         [Json (JObject
            [("summary"%string,
              JString "Student X is 5 years old with email x@x.")])] |}
  ∧ fst (ServeHTTP GET_student_summary (idRequest "1" None)
           (snd (ServeHTTP DELETE_student (idRequest "1" None) annStore))) =
      notFound.
Proof.
  destruct (summary_follows_store annStore (idRequest "1" None) 1)
    as (Hupd & Hdel & _); [reflexivity|].
  split.
  - rewrite (Hupd (idRequest "1" (Some studentX)) studentX (setID ann 1));
      [reflexivity|reflexivity|reflexivity|exact studentX_valid|reflexivity].
  - rewrite (Hdel (idRequest "1" None)); reflexivity.
Defined.
